(** * alipay_to_ofx: the statement reader, the translation cache and the
    OFX emitter of [alipay_to_ofx.py], embedded and verified.

    Python text is a sequence of Unicode code points, so a [str] is a list
    of code points; slicing, [split], [strip] and [startswith] work on
    code points exactly as they do in the interpreter.  Exceptions are a
    result type.  The translation cache is a finite map.  The output file,
    the cache and the calls made to the translator are threaded through the
    emitter as an explicit world. *)

From Stdlib Require Import NArith List Bool String Ascii Lia.
From Stdlib.Strings Require Import Byte.
From stdpp Require Import base option list gmap fin_maps.

Open Scope N_scope.

(** ** Python strings *)

Definition char := N.
Abbreviation str := (list N).

(** Strict UTF-8 decoding (shortest form only, no surrogates, nothing above
    U+10FFFF); it reads the string literals of this file and is the first
    codec of the sample codec table further down. *)
Definition cont (b : N) : bool := (0x80 <=? b) && (b <=? 0xBF).

Fixpoint utf8_decode (bs : list N) : option str :=
  match bs with
  | [] => Some []
  | b0 :: r0 =>
    if b0 <? 0x80 then cons b0 <$> utf8_decode r0
    else match r0 with
    | [] => None
    | b1 :: r1 =>
      if (0xC2 <=? b0) && (b0 <=? 0xDF) then
        if cont b1
        then cons ((b0 - 0xC0) * 64 + (b1 - 0x80)) <$> utf8_decode r1
        else None
      else match r1 with
      | [] => None
      | b2 :: r2 =>
        if (0xE0 <=? b0) && (b0 <=? 0xEF) then
          if cont b1 && cont b2
             && (negb (b0 =? 0xE0) || (0xA0 <=? b1))
             && (negb (b0 =? 0xED) || (b1 <=? 0x9F))
          then cons ((b0 - 0xE0) * 4096 + (b1 - 0x80) * 64 + (b2 - 0x80))
                 <$> utf8_decode r2
          else None
        else match r2 with
        | [] => None
        | b3 :: r3 =>
          if (0xF0 <=? b0) && (b0 <=? 0xF4)
             && cont b1 && cont b2 && cont b3
             && (negb (b0 =? 0xF0) || (0x90 <=? b1))
             && (negb (b0 =? 0xF4) || (b1 <=? 0x8F))
          then cons ((b0 - 0xF0) * 262144 + (b1 - 0x80) * 4096
                     + (b2 - 0x80) * 64 + (b3 - 0x80))
                 <$> utf8_decode r3
          else None
        end
      end
    end
  end.

Definition bytes_of (s : string) : list byte := list_byte_of_string s.

(** A literal of the source, as the interpreter sees it. *)
Definition py (s : string) : str :=
  default [] (utf8_decode (map Byte.to_N (bytes_of s))).

Definition str_eqb (a b : str) : bool := bool_decide (a = b).

(** [str.isspace] on one character: the code points CPython's
    [Py_UNICODE_ISSPACE] accepts. *)
Definition isspace (c : char) : bool :=
  ((0x09 <=? c) && (c <=? 0x0D)) || ((0x1C <=? c) && (c <=? 0x20))
  || (c =? 0x85) || (c =? 0xA0) || (c =? 0x1680)
  || ((0x2000 <=? c) && (c <=? 0x200A))
  || (c =? 0x2028) || (c =? 0x2029) || (c =? 0x202F) || (c =? 0x205F)
  || (c =? 0x3000).

(** [s.startswith(p)] *)
Fixpoint startswith (s p : str) : bool :=
  match p, s with
  | [], _ => true
  | _ :: _, [] => false
  | a :: p', b :: s' => (a =? b) && startswith s' p'
  end.

Fixpoint lstrip (s : str) : str :=
  match s with
  | c :: s' => if isspace c then lstrip s' else s
  | [] => []
  end.

Definition rstrip (s : str) : str := rev (lstrip (rev s)).

(** [s.strip()] *)
Definition strip (s : str) : str := rstrip (lstrip s).

(** [s.split(sep)] for a non-empty separator: cut at each occurrence, left
    to right, occurrences not overlapping; [skip] counts the characters of
    an occurrence still to pass over and [cur] is the piece being read,
    latest character first. *)
Fixpoint split_from (sep : str) (s : str) (skip : nat) (cur : str) : list str :=
  match s with
  | [] => [rev cur]
  | c :: s' =>
    match skip with
    | S k => split_from sep s' k cur
    | O =>
      if startswith s sep
      then rev cur :: split_from sep s' (Nat.pred (List.length sep)) []
      else split_from sep s' O (c :: cur)
    end
  end.

Definition split (s sep : str) : list str := split_from sep s O [].

(** [s.split()]: the maximal runs of characters that are not white space. *)
Fixpoint split_ws_from (s : str) (cur : str) : list str :=
  match s with
  | [] => match cur with [] => [] | _ => [rev cur] end
  | c :: s' =>
    if isspace c
    then match cur with
         | [] => split_ws_from s' []
         | _ => rev cur :: split_ws_from s' []
         end
    else split_ws_from s' (c :: cur)
  end.

Definition split_ws (s : str) : list str := split_ws_from s [].

(** [s.replace(c, "")] for a one-character [c]. *)
Definition remove_char (c : char) (s : str) : str :=
  List.filter (fun x => negb (x =? c)) s.

(** ** Exceptions *)

Inductive exn : Type :=
  | UnicodeDecodeError
  | TypeError
  | IndexError
  | UnboundLocalError
  | ValueError
  | SystemError
  | CsvError
  | KeyError.

Inductive result (A : Type) : Type :=
  | Ok (a : A)
  | Raise (e : exn).
Arguments Ok {A} a.
Arguments Raise {A} e.

Definition rbind {A B} (r : result A) (k : A -> result B) : result B :=
  match r with
  | Ok a => k a
  | Raise e => Raise e
  end.

Notation "'let*' x ':=' r 'in' k" := (rbind r (fun x => k))
  (at level 10, x pattern, r at level 100, k at level 200).

(** [l[i]]: an index past the end raises [IndexError]. *)
Definition item {A} (l : list A) (i : nat) : result A :=
  match nth_error l i with
  | Some a => Ok a
  | None => Raise IndexError
  end.

(** ** The statement reader: [parse_alipay_file] *)

Inductive Encoding : Type := utf_8 | gbk | gb2312.

(** Common encodings used in Chinese text files, in the order tried. *)
Definition encoding_list : list Encoding := [utf_8; gbk; gb2312].

(** Text mode with [newline=None]: every line ending reads as a line feed. *)
Fixpoint universal_newlines (s : str) : str :=
  match s with
  | [] => []
  | c :: r =>
    if c =? 0x0D
    then match r with
         | d :: r' => if d =? 0x0A then 0x0A :: universal_newlines r'
                      else 0x0A :: universal_newlines r
         | [] => [0x0A]
         end
    else c :: universal_newlines r
  end.

(** [file.readlines()] and iteration over a text file: the lines, each
    with its line feed; a last line without one is kept as it is. *)
Fixpoint lines_from (s : str) (cur : str) : list str :=
  match s with
  | [] => match cur with [] => [] | _ => [rev cur] end
  | c :: r =>
    if c =? 0x0A then rev (c :: cur) :: lines_from r []
    else lines_from r (c :: cur)
  end.

Definition readlines (text : str) : list str :=
  lines_from (universal_newlines text) [].

(** The [for ... else] over [encoding_list] (lines 38-46).  [decode enc
    bs] is the codec: [None] where [open(..., encoding=enc)] followed by
    [readlines()] raises [UnicodeDecodeError].  When every encoding failed
    the [else] branch evaluates [UnicodeDecodeError(msg)]: the constructor
    takes exactly five arguments (encoding, object, start, end, reason),
    so with one argument the call itself raises [TypeError] and no
    decoding error is ever built. *)
Fixpoint try_encodings (decode : Encoding -> list byte -> option str)
    (encs : list Encoding) (input : list byte) : result (list str) :=
  match encs with
  | [] => Raise TypeError
  | enc :: encs' =>
    match decode enc input with
    | Some text => Ok (readlines text)
    | None => try_encodings decode encs' input
    end
  end.

Record Metadata : Type := {
  account : str;
  start_date : str;
  end_date : str;
  export_time : str;
  total_in : str;
  total_out : str;
  total_records : option str
}.

Definition metadata0 : Metadata :=
  {| account := []; start_date := []; end_date := []; export_time := [];
     total_in := []; total_out := []; total_records := None |}.

Definition set_account v (m : Metadata) : Metadata :=
  {| account := v; start_date := start_date m; end_date := end_date m;
     export_time := export_time m; total_in := total_in m;
     total_out := total_out m; total_records := total_records m |}.
Definition set_start_date v (m : Metadata) : Metadata :=
  {| account := account m; start_date := v; end_date := end_date m;
     export_time := export_time m; total_in := total_in m;
     total_out := total_out m; total_records := total_records m |}.
Definition set_end_date v (m : Metadata) : Metadata :=
  {| account := account m; start_date := start_date m; end_date := v;
     export_time := export_time m; total_in := total_in m;
     total_out := total_out m; total_records := total_records m |}.
Definition set_export_time v (m : Metadata) : Metadata :=
  {| account := account m; start_date := start_date m; end_date := end_date m;
     export_time := v; total_in := total_in m;
     total_out := total_out m; total_records := total_records m |}.
Definition set_total_in v (m : Metadata) : Metadata :=
  {| account := account m; start_date := start_date m; end_date := end_date m;
     export_time := export_time m; total_in := v;
     total_out := total_out m; total_records := total_records m |}.
Definition set_total_out v (m : Metadata) : Metadata :=
  {| account := account m; start_date := start_date m; end_date := end_date m;
     export_time := export_time m; total_in := total_in m;
     total_out := v; total_records := total_records m |}.
Definition set_total_records v (m : Metadata) : Metadata :=
  {| account := account m; start_date := start_date m; end_date := end_date m;
     export_time := export_time m; total_in := total_in m;
     total_out := total_out m; total_records := Some v |}.

(** The inner loop over the pieces of the summary line (lines 61-65). *)
Fixpoint scan_categories (cats : list str) (m : Metadata) : result Metadata :=
  match cats with
  | [] => Ok m
  | cat :: cats' =>
    if startswith cat (py "已收入:") then
      let* a := item (split cat (py ":")) 1 in
      let* v := item (split a (py ",")) 1 in
      scan_categories cats' (set_total_in v m)
    else if startswith cat (py "已支出:") then
      let* a := item (split cat (py ":")) 1 in
      let* v := item (split a (py ",")) 1 in
      scan_categories cats' (set_total_out v m)
    else scan_categories cats' m
  end.

(** The [if/elif] chain on one line (lines 50-67). *)
Definition scan_line (line : str) (m : Metadata) : result Metadata :=
  if startswith line (py "账号") then
    let* a := item (split line (py ":")) 1 in
    Ok (set_account (strip a) m)
  else if startswith line (py "起始日期") then
    let dates := split_ws line in
    let* d0 := item dates 0 in
    let* a := item (split d0 (py ":")) 1 in
    let m := set_start_date (drop 1 (strip a)) m in
    let* d2 := item dates 2 in
    let* b := item (split d2 (py "[")) 1 in
    let* e := item (split_ws (strip b)) 0 in
    Ok (set_end_date e m)
  else if startswith line (py "共") then
    let summary := strip line in
    let* r := item (split summary (py "笔记录")) 0 in
    let m := set_total_records (drop 1 r) m in
    scan_categories (split summary (py " ")) m
  else if startswith (strip line) (py "导出时间") then
    let* a := item (split line (py ":")) 1 in
    let* t := item (split_ws (strip a)) 0 in
    Ok (set_export_time (drop 1 t) m)
  else Ok m.

(** The loop over the lines (lines 49-71), with what follows it: the loop
    stops at the first line that begins with the header label and binds
    [transaction_lines] to the lines after it; when the lines run out
    first, line 73 reads [transaction_lines] unbound. *)
Fixpoint scan_lines (lines : list str) (m : Metadata)
    : result (Metadata * list str) :=
  match lines with
  | [] => Raise UnboundLocalError
  | line :: rest =>
    let* m' := scan_line line m in
    if startswith line (py "交易号") then Ok (m', rest)
    else scan_lines rest m'
  end.

(** ** [csv.reader] with [delimiter=','] and the default dialect

    The reader of the standard library, as its parser works: the
    double quote as quote character, doubled quotes inside a quoted field, no escape
    character, no skipping of initial spaces, minimal quoting, not strict.
    A record ends at the end of a line unless a quoted field is open, in
    which case it goes on with the next line. *)

Inductive ParserState : Type :=
  | START_RECORD
  | START_FIELD
  | IN_FIELD
  | IN_QUOTED_FIELD
  | QUOTE_IN_QUOTED_FIELD
  | EAT_CRNL.

Record Reader : Type := {
  state : ParserState;
  field : str;            (* the field being read, latest character first *)
  field_len : N;
  fields : list str       (* the fields of the record, latest first *)
}.

Definition field_limit : N := 131072.
Definition delimiter : char := 0x2C.
Definition quotechar : char := 0x22.

Definition parse_reset : Reader :=
  {| state := START_RECORD; field := []; field_len := 0; fields := [] |}.

Definition set_state (s : ParserState) (r : Reader) : Reader :=
  {| state := s; field := field r; field_len := field_len r; fields := fields r |}.

Definition parse_save_field (r : Reader) : Reader :=
  {| state := state r; field := []; field_len := 0;
     fields := rev (field r) :: fields r |}.

Definition parse_add_char (c : char) (r : Reader) : result Reader :=
  if field_limit <=? field_len r then Raise CsvError
  else Ok {| state := state r; field := c :: field r;
             field_len := field_len r + 1; fields := fields r |}.

Definition is_newline (c : char) : bool := (c =? 0x0A) || (c =? 0x0D).

(** One step of the parser; [None] is the end-of-line mark the reader
    feeds after the last character of each line. *)
Definition parse_process_char (c : option char) (r : Reader) : result Reader :=
  let start_field :=
    match c with
    | None => Ok (set_state START_RECORD (parse_save_field r))
    | Some ch =>
      if is_newline ch then Ok (set_state EAT_CRNL (parse_save_field r))
      else if ch =? quotechar then Ok (set_state IN_QUOTED_FIELD r)
      else if ch =? delimiter then Ok (parse_save_field r)
      else let* r' := parse_add_char ch r in Ok (set_state IN_FIELD r')
    end in
  match state r with
  | START_RECORD =>
    match c with
    | None => Ok r
    | Some ch =>
      if is_newline ch then Ok (set_state EAT_CRNL r)
      else start_field
    end
  | START_FIELD => start_field
  | IN_FIELD =>
    match c with
    | None => Ok (set_state START_RECORD (parse_save_field r))
    | Some ch =>
      if is_newline ch then Ok (set_state EAT_CRNL (parse_save_field r))
      else if ch =? delimiter then Ok (set_state START_FIELD (parse_save_field r))
      else parse_add_char ch r
    end
  | IN_QUOTED_FIELD =>
    match c with
    | None => Ok r
    | Some ch =>
      if ch =? quotechar then Ok (set_state QUOTE_IN_QUOTED_FIELD r)
      else parse_add_char ch r
    end
  | QUOTE_IN_QUOTED_FIELD =>
    match c with
    | None => Ok (set_state START_RECORD (parse_save_field r))
    | Some ch =>
      if ch =? quotechar then
        let* r' := parse_add_char ch r in Ok (set_state IN_QUOTED_FIELD r')
      else if ch =? delimiter then Ok (set_state START_FIELD (parse_save_field r))
      else if is_newline ch then Ok (set_state EAT_CRNL (parse_save_field r))
      else let* r' := parse_add_char ch r in Ok (set_state IN_FIELD r')
    end
  | EAT_CRNL =>
    match c with
    | None => Ok (set_state START_RECORD r)
    | Some ch => if is_newline ch then Ok r else Raise CsvError
    end
  end.

(** The characters of one line, then the end-of-line mark. *)
Fixpoint parse_line (line : str) (r : Reader) : result Reader :=
  match line with
  | [] => parse_process_char None r
  | c :: line' =>
    let* r' := parse_process_char (Some c) r in parse_line line' r'
  end.

(** All the records of the input: [next(reader)] repeated until the lines
    run out.  A record is handed over when a line leaves the parser in
    [START_RECORD]; when the lines run out, what has been read is handed
    over as a last record if the field holds characters or a quoted field
    is open. *)
Definition in_quoted_field (r : Reader) : bool :=
  match state r with
  | IN_QUOTED_FIELD => true
  | _ => false
  end.

Fixpoint read_records (lines : list str) (r : Reader) : result (list (list str)) :=
  match lines with
  | [] =>
    if negb (field_len r =? 0) || in_quoted_field r
    then Ok [rev (fields (parse_save_field r))]
    else Ok []
  | line :: lines' =>
    let* r' := parse_line line r in
    match state r' with
    | START_RECORD =>
      let* rows := read_records lines' parse_reset in
      Ok (rev (fields r') :: rows)
    | _ => read_records lines' r'
    end
  end.

Definition csv_reader (lines : list str) : result (list (list str)) :=
  read_records lines parse_reset.

(** ** Transactions *)

Record Transaction : Type := {
  transaction_id : str;
  merchant_order_id : str;
  transaction_create_time : str;
  payment_time : str;
  last_modified_time : str;
  transaction_source : str;
  type_ : str;
  counterparty : str;
  item_name : str;
  amount_cny : str;
  income_or_expense : str;
  transaction_status : str;
  service_fee : str;
  successful_refund : str;
  remarks : str;
  fund_status : str
}.

(** [row[i].strip()] for a row already known to have more than [i] fields. *)
Definition cell (row : list str) (i : nat) : str := strip (nth i row []).

Definition make_transaction (row : list str) : Transaction :=
  {| transaction_id := cell row 0;
     merchant_order_id := cell row 1;
     transaction_create_time := cell row 2;
     payment_time := cell row 3;
     last_modified_time := cell row 4;
     transaction_source := cell row 5;
     type_ := cell row 6;
     counterparty := cell row 7;
     item_name := cell row 8;
     amount_cny := cell row 9;
     income_or_expense := cell row 10;
     transaction_status := cell row 11;
     service_fee := cell row 12;
     successful_refund := cell row 13;
     remarks := cell row 14;
     fund_status := cell row 15 |}.

(** The loop over the rows (lines 74-94); [transactions] is the list
    built so far, [append] adds at its end. *)
Fixpoint collect_rows (rows : list (list str)) (transactions : list Transaction)
    : list Transaction :=
  match rows with
  | [] => transactions
  | row :: rows' =>
    if (List.length row <? 17)%nat then collect_rows rows' transactions
    else collect_rows rows' (transactions ++ [make_transaction row])
  end.

Definition parse_lines (lines : list str) : result (list Transaction * Metadata) :=
  let* scanned := scan_lines lines metadata0 in
  let metadata := fst scanned in
  let transaction_lines := snd scanned in
  let* rows := csv_reader transaction_lines in
  Ok (collect_rows rows [], metadata).

Definition parse_alipay_file (decode : Encoding -> list byte -> option str)
    (input : list byte) : result (list Transaction * Metadata) :=
  let* lines := try_encodings decode encoding_list input in
  parse_lines lines.

(** ** The translation cache file *)

(** The file system, as far as the cache needs it: the text held at each
    path that exists.  The cache file is written and read as UTF-8 text,
    which is transparent for text; reading applies [universal_newlines]. *)
Definition cache_line (entry : str * str) : str :=
  entry.1 ++ py "|" ++ entry.2 ++ [0x0A].

(** A [gmap] does not keep the order of insertion the interpreter's [dict]
    iterates in; the lines are written in the order of [map_to_list]. *)
Definition save_translations_map (translations : gmap str str)
    (translation_file : str) (fs : gmap str str) : gmap str str :=
  <[translation_file := concat (cache_line <$> map_to_list translations)]> fs.

(** [original, translated = line.strip().split('|')]: anything but two
    pieces fails the unpacking with [ValueError]. *)
Fixpoint load_lines (lines : list str) (translations : gmap str str)
    : result (gmap str str) :=
  match lines with
  | [] => Ok translations
  | line :: lines' =>
    match split (strip line) (py "|") with
    | [original; translated] =>
      load_lines lines' (<[original := translated]> translations)
    | _ => Raise ValueError
    end
  end.

Definition load_translations_map (translation_file : str) (fs : gmap str str)
    : result (gmap str str) :=
  match fs !! translation_file with
  | None => Ok ∅
  | Some text => load_lines (readlines text) ∅
  end.


Definition starts_with_space (s : str) : bool :=
  match s with
  | c :: _ => isspace c
  | [] => false
  end.

Definition ends_with_space (s : str) : bool := starts_with_space (rev s).


(** ** Dates *)

Record datetime : Type := {
  year : N; month : N; day : N; hour : N; minute : N; second : N
}.

(** A backtracking matcher: every way to match a prefix, in the order the
    regular-expression engine tries them, with what is left. *)
Definition parser (A : Type) : Type := str -> list (A * str).

Definition alt {A} (p q : parser A) : parser A := fun s => p s ++ q s.

Definition andthen {A B} (p : parser A) (f : A -> parser B) : parser B :=
  fun s => flat_map (fun ar => f (fst ar) (snd ar)) (p s).

Definition yield {A} (a : A) : parser A := fun s => [(a, s)].

(** A decimal digit between [lo] and [hi]; its value.  Digits are the
    ASCII ones: the engine's [\d] also takes the decimal digits of other
    scripts, which this matcher rejects. *)
Definition dig (lo hi : N) : parser N := fun s =>
  match s with
  | c :: r => if (0x30 + lo <=? c) && (c <=? 0x30 + hi) then [(c - 0x30, r)] else []
  | [] => []
  end.

Definition dig2 (lo1 hi1 lo2 hi2 : N) : parser N :=
  andthen (dig lo1 hi1) (fun a => andthen (dig lo2 hi2) (fun b => yield (10 * a + b))).

Definition lit (c : char) : parser unit := fun s =>
  match s with
  | d :: r => if d =? c then [(tt, r)] else []
  | [] => []
  end.

(** [\s+], longest run first. *)
Fixpoint spaces (s : str) : list (unit * str) :=
  match s with
  | c :: r => if isspace c then spaces r ++ [(tt, r)] else []
  | [] => []
  end.

(** The groups of ['%Y-%m-%d %H:%M:%S'] as [_strptime] compiles them. *)
Definition re_Y : parser N :=
  andthen (dig2 0 9 0 9) (fun a => andthen (dig2 0 9 0 9) (fun b => yield (100 * a + b))).
Definition re_m : parser N := alt (dig2 1 1 0 2) (alt (dig2 0 0 1 9) (dig 1 9)).
Definition re_d : parser N :=
  alt (dig2 3 3 0 1) (alt (dig2 1 2 0 9) (alt (dig2 0 0 1 9) (alt (dig 1 9)
    (andthen (lit 0x20) (fun _ => dig 1 9))))).
Definition re_H : parser N := alt (dig2 2 2 0 3) (alt (dig2 0 1 0 9) (dig 0 9)).
Definition re_M : parser N := alt (dig2 0 5 0 9) (dig 0 9).
Definition re_S : parser N := alt (dig2 6 6 0 1) (alt (dig2 0 5 0 9) (dig 0 9)).

Definition re_datetime : parser datetime :=
  andthen re_Y (fun Y => andthen (lit 0x2D) (fun _ =>
  andthen re_m (fun m => andthen (lit 0x2D) (fun _ =>
  andthen re_d (fun d => andthen spaces (fun _ =>
  andthen re_H (fun H => andthen (lit 0x3A) (fun _ =>
  andthen re_M (fun M => andthen (lit 0x3A) (fun _ =>
  andthen re_S (fun S =>
  yield {| year := Y; month := m; day := d;
           hour := H; minute := M; second := S |}))))))))))).

Definition is_leap (y : N) : bool :=
  ((y mod 4 =? 0) && negb (y mod 100 =? 0)) || (y mod 400 =? 0).

Definition days_in_month (y m : N) : N :=
  if m =? 2 then (if is_leap y then 29 else 28)
  else if (m =? 4) || (m =? 6) || (m =? 9) || (m =? 11) then 30
  else 31.

(** What the [datetime] constructor checks. *)
Definition valid_datetime (dt : datetime) : bool :=
  (1 <=? year dt) && (year dt <=? 9999)
  && (1 <=? month dt) && (month dt <=? 12)
  && (1 <=? day dt) && (day dt <=? days_in_month (year dt) (month dt))
  && (hour dt <=? 23) && (minute dt <=? 59) && (second dt <=? 59).

(** [datetime.strptime(s, '%Y-%m-%d %H:%M:%S')]: the first match of the
    expression must reach the end of the string, and the fields must make
    a date; every failure is a [ValueError]. *)
Definition strptime (s : str) : result datetime :=
  match re_datetime s with
  | (dt, []) :: _ => if valid_datetime dt then Ok dt else Raise ValueError
  | _ => Raise ValueError
  end.

(** [width] decimal digits of [n], most significant first. *)
Fixpoint zpad (width : nat) (n : N) : str :=
  match width with
  | O => []
  | S w => zpad w (n / 10) ++ [0x30 + n mod 10]
  end.

Definition year_width (y : N) : nat :=
  if y <? 10 then 1%nat else if y <? 100 then 2%nat
  else if y <? 1000 then 3%nat else 4%nat.

(** [dt.strftime('%Y%m%d%H%M%S')].  The C library prints [%Y]: below 1000
    some pad the year to four digits and some do not, which [pad_year]
    records. *)
Definition strftime (pad_year : bool) (dt : datetime) : str :=
  zpad (if pad_year then 4%nat else year_width (year dt)) (year dt)
  ++ zpad 2 (month dt) ++ zpad 2 (day dt)
  ++ zpad 2 (hour dt) ++ zpad 2 (minute dt) ++ zpad 2 (second dt).

Definition format_ofx_datetime (pad_year : bool) (dt_str : str) : result str :=
  if bool_decide (dt_str = []) || bool_decide (strip dt_str = []) then Ok []
  else
    let* dt := strptime dt_str in
    Ok (strftime pad_year dt ++ py ".000[+8:CST]").

(** ** The world of the emitter *)

(** What the translation service answers to one request. *)
Inductive Response : Type :=
  | HTTPError                      (* [raise_for_status] raises *)
  | Reply (translated : result str).
      (* the value of [response.json()['data']['translations'][0]['translatedText']],
         or the exception its evaluation raises *)

Record TranslateCall : Type := {
  call_text : str;
  call_target : option str;
  call_key : option str
}.

Record World : Type := {
  written : list str;                 (* the arguments of [file.write], in order *)
  translations : gmap str str;        (* the cache, shared by all the calls *)
  calls : list TranslateCall          (* the calls of [translate_text], in order *)
}.

Definition M (A : Type) : Type := World -> result A * World.

Definition ret {A} (a : A) : M A := fun w => (Ok a, w).
Definition throw {A} (e : exn) : M A := fun w => (Raise e, w).
Definition bind {A B} (m : M A) (k : A -> M B) : M B := fun w =>
  match m w with
  | (Ok a, w') => k a w'
  | (Raise e, w') => (Raise e, w')
  end.
Definition lift {A} (r : result A) : M A := fun w => (r, w).

Notation "'let!' x ':=' m 'in' k" := (bind m (fun x => k))
  (at level 10, x pattern, m at level 100, k at level 200).
Notation "m ';;' k" := (bind m (fun _ => k))
  (at level 100, k at level 200, right associativity).

Definition write (chunk : str) : M unit := fun w =>
  (Ok tt, {| written := written w ++ [chunk];
             translations := translations w; calls := calls w |}).

Definition get_translations : M (gmap str str) := fun w => (Ok (translations w), w).

Definition set_translation (k v : str) : M unit := fun w =>
  (Ok tt, {| written := written w;
             translations := <[k := v]> (translations w); calls := calls w |}).

Definition record_call (c : TranslateCall) : M nat := fun w =>
  (Ok (List.length (calls w)),
   {| written := written w; translations := translations w;
      calls := calls w ++ [c] |}).

(** Truth value of an optional string: [None] and [''] are false. *)
Definition truthy (s : option str) : bool :=
  match s with
  | Some (_ :: _) => true
  | _ => false
  end.

(** A line of the document: text and a line feed. *)
Definition ln (s : string) : str := py s ++ [0x0A].

(** ["pre{}post\n".format(x)] *)
Definition tag (pre : string) (x : str) (post : string) : str :=
  py pre ++ x ++ py post ++ [0x0A].

Section Emitter.

(** The translation service: the answer to the [n]-th call of
    [translate_text], given text, target language and key. *)
Variable google : nat -> str -> option str -> str -> Response.

(** How the C library prints years below 1000. *)
Variable pad_year : bool.

Definition translate_text (text : str) (target_lang api_key : option str) : M str :=
  let! n := record_call {| call_text := text; call_target := target_lang;
                           call_key := api_key |} in
  match api_key with
  | Some (c :: key) =>
    match google n text target_lang (c :: key) with
    | HTTPError => throw SystemError
    | Reply r => lift r
    end
  | _ => throw ValueError
  end.

Definition translate_field (text : str) (target_lang api_key : option str) : M str :=
  let! cache := get_translations in
  (match cache !! text with
   | None =>
     let! translated := translate_text text target_lang api_key in
     set_translation text translated
   | Some _ => ret tt
   end) ;;
  let! cache := get_translations in
  match cache !! text with
  | Some translated => ret (translated ++ py " (" ++ text ++ py ")")
  | None => throw KeyError
  end.

(** [translate_field(...) if target_lang else text] *)
Definition field_text (text : str) (target_lang api_key : option str) : M str :=
  if truthy target_lang then translate_field text target_lang api_key
  else ret text.

(** [a or b]: [b] is evaluated only when [a] is the empty string. *)
Definition or_else (a : result str) (b : result str) : result str :=
  let* x := a in
  match x with
  | [] => b
  | _ => Ok x
  end.

Definition trntype (transaction : Transaction) : str :=
  if str_eqb (income_or_expense transaction) (py "收入")
  then py "CREDIT" else py "DEBIT".

(** The body of the loop over the transactions (lines 252-268). *)
Definition emit_transaction (target_lang api_key : option str)
    (transaction : Transaction) : M unit :=
  write (ln "          <STMTTRN>") ;;
  write (tag "            <TRNTYPE>" (trntype transaction) "</TRNTYPE>") ;;
  let! dt_posted :=
    lift (or_else (or_else (format_ofx_datetime pad_year (payment_time transaction))
                           (format_ofx_datetime pad_year (transaction_create_time transaction)))
                  (format_ofx_datetime pad_year (last_modified_time transaction))) in
  let dt_posted :=
    match dt_posted with
    | [] => py "19700101000000.000[+0:GMT]"
    | _ => dt_posted
    end in
  write (tag "            <DTPOSTED>" dt_posted "</DTPOSTED>") ;;
  write (tag "            <TRNAMT>" (amount_cny transaction) "</TRNAMT>") ;;
  write (tag "            <FITID>" (transaction_id transaction) "</FITID>") ;;
  let! name := field_text (counterparty transaction) target_lang api_key in
  write (tag "            <NAME>" name "</NAME>") ;;
  let! memo := field_text (item_name transaction) target_lang api_key in
  write (tag "            <MEMO>" memo "</MEMO>") ;;
  write (ln "          </STMTTRN>").

Fixpoint emit_transactions (target_lang api_key : option str)
    (transactions : list Transaction) : M unit :=
  match transactions with
  | [] => ret tt
  | transaction :: rest =>
    emit_transaction target_lang api_key transaction ;;
    emit_transactions target_lang api_key rest
  end.

Fixpoint write_all (chunks : list str) : M unit :=
  match chunks with
  | [] => ret tt
  | c :: chunks' => write c ;; write_all chunks'
  end.

(** [open(output_file, 'w')]: the file starts empty. *)
Definition open_w : M unit := fun w =>
  (Ok tt, {| written := []; translations := translations w; calls := calls w |}).

Definition generate_ofx (transactions : list Transaction) (metadata : Metadata)
    (target_lang api_key : option str) : M unit :=
  open_w ;;
  write_all
    [ ln "OFXHEADER:100"; ln "DATA:OFXSGML"; ln "VERSION:102";
      ln "SECURITY:NONE"; ln "ENCODING:UTF-8"; ln "CHARSET:NONE";
      ln "COMPRESSION:NONE"; ln "OLDFILEUID:NONE"; ln "NEWFILEUID:NONE";
      ln "<OFX>"; ln "  <SIGNONMSGSRSV1>"; ln "    <SONRS>";
      ln "      <STATUS>"; ln "        <CODE>0</CODE>";
      ln "        <SEVERITY>INFO</SEVERITY>"; ln "      </STATUS>" ] ;;
  let! dt_server :=
    match export_time metadata with
    | [] => ret (py "20240101000000.000[+8:CST]")
    | _ => lift (format_ofx_datetime pad_year (export_time metadata))
    end in
  write_all
    [ tag "      <DTSERVER>" dt_server "</DTSERVER>";
      ln "      <LANGUAGE>ENG</LANGUAGE>"; ln "      <FI>";
      ln "        <ORG>ALIPAY</ORG>"; ln "        <FID>NOFID</FID>";
      ln "      </FI>"; ln "    </SONRS>"; ln "  </SIGNONMSGSRSV1>";
      ln "  <BANKMSGSRSV1>"; ln "    <STMTTRNRS>";
      ln "      <TRNUID>1</TRNUID>"; ln "      <STATUS>";
      ln "        <CODE>0</CODE>"; ln "        <SEVERITY>INFO</SEVERITY>";
      ln "      </STATUS>"; ln "      <STMTRS>";
      ln "        <CURDEF>CNY</CURDEF>"; ln "        <BANKACCTFROM>";
      ln "          <BANKID>ALIPAY</BANKID>";
      tag "          <ACCTID>" (account metadata) "</ACCTID>";
      ln "          <ACCTTYPE>CHECKING</ACCTTYPE>";
      ln "        </BANKACCTFROM>"; ln "        <BANKTRANLIST>";
      tag "          <DTSTART>"
        (remove_char 0x2D (start_date metadata) ++ py "000000.000[+8:CST]")
        "</DTSTART>";
      tag "          <DTEND>"
        (remove_char 0x2D (end_date metadata) ++ py "000000.000[+8:CST]")
        "</DTEND>" ] ;;
  emit_transactions target_lang api_key transactions ;;
  write_all
    [ ln "        </BANKTRANLIST>"; ln "        <LEDGERBAL>";
      tag "          <BALAMT>" (total_in metadata) "</BALAMT>";
      tag "          <DTASOF>" dt_server "</DTASOF>";
      ln "        </LEDGERBAL>"; ln "        <AVAILBAL>";
      tag "          <BALAMT>" (total_out metadata) "</BALAMT>";
      tag "          <DTASOF>" dt_server "</DTASOF>";
      ln "        </AVAILBAL>"; ln "      </STMTRS>"; ln "    </STMTTRNRS>";
      ln "  </BANKMSGSRSV1>"; ln "</OFX>" ].

End Emitter.

(** ** The document, as read back from the writes *)

(** One STMTTRN block: the eight writes made for a transaction, given the
    posted date and the name and memo texts that went into it. *)
Definition stmttrn_open : str := ln "          <STMTTRN>".

Definition stmttrn_block (transaction : Transaction) (dt_posted name memo : str)
    : list str :=
  [ stmttrn_open;
    tag "            <TRNTYPE>" (trntype transaction) "</TRNTYPE>";
    tag "            <DTPOSTED>" dt_posted "</DTPOSTED>";
    tag "            <TRNAMT>" (amount_cny transaction) "</TRNAMT>";
    tag "            <FITID>" (transaction_id transaction) "</FITID>";
    tag "            <NAME>" name "</NAME>";
    tag "            <MEMO>" memo "</MEMO>";
    ln "          </STMTTRN>" ].

(** An action that leaves what is written in place and only adds to it. *)
Definition appends {A} (m : M A) : Prop :=
  forall w, exists rest, written (m w).2 = written w ++ rest.

(** ** Sample data *)

(** A codec table to run the reader on concrete files: the UTF-8 decoder
    above, and for the two GB encodings their single-byte range only (a
    byte of 0x80 and above is refused). *)
Definition decode_7bit (bs : list byte) : option str :=
  let cs := map Byte.to_N bs in
  if forallb (fun c => c <? 0x80) cs then Some cs else None.

Definition sample_codec (enc : Encoding) (bs : list byte) : option str :=
  match enc with
  | utf_8 => utf8_decode (map Byte.to_N bs)
  | gbk | gb2312 => decode_7bit bs
  end.

Definition file_of (lines : list string) : list byte :=
  flat_map (fun l => bytes_of l ++ [x0a]) lines.

Definition header_line : string :=
  "交易号,商家订单号,交易创建时间,付款时间,最近修改时间,交易来源地,类型,交易对方,商品名称,金额（元）,收/支,交易状态,服务费（元）,成功退款（元）,备注,资金状态,".

Definition row_17 : string :=
  "T2,M2,2024-01-16 09:00:00,2024-01-16 09:00:05,2024-01-16 09:01:00,web,pay,Cafe,Cake,30.00,支出,ok,0.00,0.00,note,done,".

Definition file_17 : list byte := file_of [header_line; row_17].
Definition file_no_header : list byte := file_of ["账号:[a@b.c]"%string; row_17].
Definition file_undecodable : list byte := [xff].

Definition sample_transaction : Transaction := make_transaction (split (py row_17) (py ",")).

Definition sample_metadata : Metadata :=
  {| account := py "a@b.c"; start_date := py "2024-01-01";
     end_date := py "2024-01-31"; export_time := py "2024-02-01 10:00:00";
     total_in := py "12.50"; total_out := py "30.00";
     total_records := Some (py "2") |}.

Definition lines_17 : list str := readlines (py header_line ++ [0x0A] ++ py row_17 ++ [0x0A]).
Definition lines_no_header : list str :=
  readlines (py "账号:[a@b.c]" ++ [0x0A] ++ py row_17 ++ [0x0A]).


Definition metadata_date_only : Metadata :=
  {| account := py "a@b.c"; start_date := py "2024-01-01";
     end_date := py "2024-01-31"; export_time := py "2024-02-01";
     total_in := py "12.50"; total_out := py "30.00";
     total_records := Some (py "2") |}.


Definition world0 : World :=
  {| written := []; translations := ∅; calls := [] |}.

(** A translation service that answers every request with the same word. *)
Definition sample_google (n : nat) (text : str) (target : option str) (key : str)
    : Response := Reply (Ok (py "Apple")).


Definition run_sample : result unit * World :=
  generate_ofx sample_google false [sample_transaction] sample_metadata
    None None world0.




(** ** Further vocabulary for the properties *)

(** The sixteen fields of a transaction, in the order of the columns. *)
Definition fields_of (t : Transaction) : list str :=
  [ transaction_id t; merchant_order_id t; transaction_create_time t;
    payment_time t; last_modified_time t; transaction_source t; type_ t;
    counterparty t; item_name t; amount_cny t; income_or_expense t;
    transaction_status t; service_fee t; successful_refund t; remarks t;
    fund_status t ].

(** A string without any white space. *)
Definition spaceless (s : str) : bool := forallb (fun c => negb (isspace c)) s.

(** A matcher whose every result leaves a suffix of what it was given. *)
Definition consumes {A} (p : parser A) : Prop :=
  forall s a r, In (a, r) (p s) -> exists pre, s = pre ++ r.

(** A statement whose export-time line comes before the header line. *)
Definition file_export_first : list byte :=
  file_of ["导出时间:[2024-02-01 10:00:00]"%string; header_line; row_17].

(** What a run of an action did to the cache and to the translator, for
    every outcome: the calls it added have texts that were not in the
    cache and that differ from one another; no entry of the cache changed
    or went away, and every new key is the text of one of the calls; and
    when the action returned, every text called for is in the cache. *)
Definition translates_once {A} (m : M A) : Prop :=
  forall w, exists new,
    calls (m w).2 = calls w ++ new
    /\ NoDup (call_text <$> new)
    /\ (forall c, In c new -> translations w !! call_text c = None)
    /\ (forall k, translations (m w).2 !! k = translations w !! k
                  \/ (translations w !! k = None /\ In k (call_text <$> new)))
    /\ (forall a, (m w).1 = Ok a ->
        forall c, In c new -> is_Some (translations (m w).2 !! call_text c)).

(** The text written for a name: the name itself without a target
    language, and with one the translation the cache holds for it,
    followed by the name in parentheses. *)
Definition name_text (target_lang : option str) (cache : gmap str str)
    (text written_text : str) : Prop :=
  if truthy target_lang
  then exists translated,
         cache !! text = Some translated
         /\ written_text = translated ++ py " (" ++ text ++ py ")"
  else written_text = text.

(** The document around the transactions: the 41 writes before them and
    the 13 after them, given the server date. *)
Definition ofx_prologue (metadata : Metadata) (dt_server : str) : list str :=
  [ ln "OFXHEADER:100"; ln "DATA:OFXSGML"; ln "VERSION:102";
    ln "SECURITY:NONE"; ln "ENCODING:UTF-8"; ln "CHARSET:NONE";
    ln "COMPRESSION:NONE"; ln "OLDFILEUID:NONE"; ln "NEWFILEUID:NONE";
    ln "<OFX>"; ln "  <SIGNONMSGSRSV1>"; ln "    <SONRS>";
    ln "      <STATUS>"; ln "        <CODE>0</CODE>";
    ln "        <SEVERITY>INFO</SEVERITY>"; ln "      </STATUS>";
    tag "      <DTSERVER>" dt_server "</DTSERVER>";
    ln "      <LANGUAGE>ENG</LANGUAGE>"; ln "      <FI>";
    ln "        <ORG>ALIPAY</ORG>"; ln "        <FID>NOFID</FID>";
    ln "      </FI>"; ln "    </SONRS>"; ln "  </SIGNONMSGSRSV1>";
    ln "  <BANKMSGSRSV1>"; ln "    <STMTTRNRS>";
    ln "      <TRNUID>1</TRNUID>"; ln "      <STATUS>";
    ln "        <CODE>0</CODE>"; ln "        <SEVERITY>INFO</SEVERITY>";
    ln "      </STATUS>"; ln "      <STMTRS>";
    ln "        <CURDEF>CNY</CURDEF>"; ln "        <BANKACCTFROM>";
    ln "          <BANKID>ALIPAY</BANKID>";
    tag "          <ACCTID>" (account metadata) "</ACCTID>";
    ln "          <ACCTTYPE>CHECKING</ACCTTYPE>";
    ln "        </BANKACCTFROM>"; ln "        <BANKTRANLIST>";
    tag "          <DTSTART>"
      (remove_char 0x2D (start_date metadata) ++ py "000000.000[+8:CST]")
      "</DTSTART>";
    tag "          <DTEND>"
      (remove_char 0x2D (end_date metadata) ++ py "000000.000[+8:CST]")
      "</DTEND>" ].

Definition ofx_epilogue (metadata : Metadata) (dt_server : str) : list str :=
  [ ln "        </BANKTRANLIST>"; ln "        <LEDGERBAL>";
    tag "          <BALAMT>" (total_in metadata) "</BALAMT>";
    tag "          <DTASOF>" dt_server "</DTASOF>";
    ln "        </LEDGERBAL>"; ln "        <AVAILBAL>";
    tag "          <BALAMT>" (total_out metadata) "</BALAMT>";
    tag "          <DTASOF>" dt_server "</DTASOF>";
    ln "        </AVAILBAL>"; ln "      </STMTRS>"; ln "    </STMTTRNRS>";
    ln "  </BANKMSGSRSV1>"; ln "</OFX>" ].

(** The server date of a document that was completed. *)
Definition server_date (pad_year : bool) (metadata : Metadata) (dt_server : str)
    : Prop :=
  match export_time metadata with
  | [] => dt_server = py "20240101000000.000[+8:CST]"
  | _ :: _ => format_ofx_datetime pad_year (export_time metadata) = Ok dt_server
  end.

(** The posted date of a block that was completed. *)
Definition posted_date (pad_year : bool) (t : Transaction) (dt_posted : str) : Prop :=
  exists d,
    or_else (or_else (format_ofx_datetime pad_year (payment_time t))
                     (format_ofx_datetime pad_year (transaction_create_time t)))
            (format_ofx_datetime pad_year (last_modified_time t)) = Ok d
    /\ dt_posted = match d with
                   | [] => py "19700101000000.000[+0:GMT]"
                   | _ :: _ => d
                   end.

(** The block written for a transaction in a run that ended with the
    cache [cache]. *)
Definition block_of (pad_year : bool) (target_lang : option str)
    (cache : gmap str str) (t : Transaction) (block : list str) : Prop :=
  exists dt_posted name memo,
    block = stmttrn_block t dt_posted name memo
    /\ posted_date pad_year t dt_posted
    /\ name_text target_lang cache (counterparty t) name
    /\ name_text target_lang cache (item_name t) memo.

(** An action that leaves the cache and the list of calls as they are,
    whatever its outcome. *)
Definition quiet {A} (m : M A) : Prop :=
  forall w, translations (m w).2 = translations w /\ calls (m w).2 = calls w.

(** The number of times a character occurs in a string. *)
Definition occurrences (c : char) (s : str) : nat :=
  List.length (List.filter (fun x => x =? c) s).



(** An action that, when it returns, has left the cache and the list of
    calls as they were. *)
Definition returns_quietly {A} (m : M A) : Prop :=
  forall w a w', m w = (Ok a, w') ->
    translations w' = translations w /\ calls w' = calls w.

(** ** The command line: the body of [__main__] (lines 284-304)

    [input] is the content of the input file, [None] when the path does
    not exist; [fs] holds the text files, of which the program reads and
    writes [translations.txt]; the output file is what [generate_ofx]
    wrote, [None] when it was not reached.  Input file, output file and
    cache file are taken to be three different files. *)

Inductive Outcome : Type :=
  | FileNotFound
  | Failed (e : exn)
  | Converted.

Record Run : Type := {
  outcome : Outcome;
  output : option (list str);
  files : gmap str str;
  calls_made : list TranslateCall
}.

Definition translation_file : str := py "translations.txt".

Definition main (decode : Encoding -> list byte -> option str)
    (google : nat -> str -> option str -> str -> Response) (pad_year : bool)
    (input : option (list byte)) (translate : bool) (api_key : option str)
    (fs : gmap str str) : Run :=
  match input with
  | None =>
    {| outcome := FileNotFound; output := None; files := fs; calls_made := [] |}
  | Some bytes =>
    match load_translations_map translation_file fs with
    | Raise e =>
      {| outcome := Failed e; output := None; files := fs; calls_made := [] |}
    | Ok cache =>
      match parse_alipay_file decode bytes with
      | Raise e =>
        {| outcome := Failed e; output := None; files := fs; calls_made := [] |}
      | Ok (transactions, metadata) =>
        let run :=
          generate_ofx google pad_year transactions metadata (Some (py "en"))
            (if translate then api_key else None)
            {| written := []; translations := cache; calls := [] |} in
        match run.1 with
        | Raise e =>
          {| outcome := Failed e; output := Some (written run.2); files := fs;
             calls_made := calls run.2 |}
        | Ok _ =>
          {| outcome := Converted; output := Some (written run.2);
             files := save_translations_map (translations run.2)
                        translation_file fs;
             calls_made := calls run.2 |}
        end
      end
    end
  end.

(** A line that one of the four tests of the scan takes for a metadata line. *)
Definition labelled (line : str) : bool :=
  startswith line (py "账号") || startswith line (py "起始日期")
  || startswith line (py "共") || startswith (strip line) (py "导出时间").

(** More sample data: a statement with a title line before the header
    line and the summary lines after the table, a cache that holds the two names of the sample
    transaction, the same as a cache file, a cache file with a blank line
    at its end, and a translation service that is down. *)
Definition title_line : string := "支付宝交易记录明细查询".

Definition file_titled : list byte :=
  file_of [title_line; header_line; row_17; "共1笔记录"%string;
           "导出时间:[2024-02-01 10:00:00]"%string].

Definition world_cached : World :=
  {| written := [];
     translations := {[ py "Cafe" := py "Coffee shop"; py "Cake" := py "Gateau" ]};
     calls := [] |}.

Definition fs_cached : gmap str str :=
  {[ translation_file :=
       py "Cafe|Coffee shop" ++ [0x0A] ++ py "Cake|Gateau" ++ [0x0A] ]}.

Definition fs_blank_line : gmap str str :=
  {[ translation_file := py "Cafe|Coffee shop" ++ [0x0A; 0x0A] ]}.

Definition google_down (n : nat) (text : str) (target : option str) (key : str)
    : Response := HTTPError.

(** * Properties *)

(** ** Strings: the model on the literals and idioms the source uses *)

Example py_income : py "收入" = [0x6536; 0x5165].
Proof. reflexivity. Qed.

Example split_colon : split (py "a::b") (py ":") = [py "a"; []; py "b"].
Proof. reflexivity. Qed.

Example split_word : split (py "abcabca") (py "bc") = [py "a"; py "a"; py "a"].
Proof. reflexivity. Qed.

Example split_overlap : split (py "aaa") (py "aa") = [[]; py "a"].
Proof. reflexivity. Qed.

Example split_ws_runs :
  split_ws (py "a  b" ++ [0x09] ++ py "c" ++ [0x0A]) = [py "a"; py "b"; py "c"].
Proof. reflexivity. Qed.

Example strip_both :
  strip ([0x20] ++ py "a" ++ [0x1F] ++ py "b" ++ [0x20; 0x3000])
  = py "a" ++ [0x1F] ++ py "b".
Proof. reflexivity. Qed.

Example readlines_endings :
  readlines (py "a" ++ [13; 10] ++ py "b" ++ [13] ++ py "c" ++ [10; 10] ++ py "d")
  = [py "a" ++ [10]; py "b" ++ [10]; py "c" ++ [10]; [10]; py "d"].
Proof. reflexivity. Qed.

(** ** The csv reader on the cases that shape a row *)

Example csv_trailing_comma : csv_reader [py "a," ++ [10]] = Ok [[py "a"; []]].
Proof. reflexivity. Qed.

Example csv_empty_line : csv_reader [py "a,b" ++ [10]; [10]; py "c" ++ [10]]
  = Ok [[py "a"; py "b"]; []; [py "c"]].
Proof. reflexivity. Qed.

Example csv_quoted_newline :
  csv_reader [[34] ++ py "a" ++ [10]; py "b" ++ [34] ++ py ",c" ++ [10]]
  = Ok [[py "a" ++ [10] ++ py "b"; py "c"]].
Proof. reflexivity. Qed.

Example csv_open_quote_at_end : csv_reader [[34] ++ py "abc"] = Ok [[py "abc"]].
Proof. reflexivity. Qed.

Example csv_bare_return : csv_reader [py "a" ++ [13] ++ py "b,c" ++ [10]] = Raise CsvError.
Proof. reflexivity. Qed.

(** ** The statement reader *)

Section ReaderProperties.

Variable decode : Encoding -> list byte -> option str.

Lemma try_encodings_all_fail (encs : list Encoding) (input : list byte) :
  Forall (fun enc => decode enc input = None) encs ->
  try_encodings decode encs input = Raise TypeError.
Proof.
  induction 1 as [|enc encs Henc _ IH]; simpl; [reflexivity|].
  now rewrite Henc.
Qed.

(** The first encoding of the list that decodes the file is the one whose
    text is read: the encodings before it failed and those after it are
    not consulted. *)
Lemma try_encodings_first (before after : list Encoding) (enc : Encoding)
    (input : list byte) (text : str) :
  Forall (fun e => decode e input = None) before ->
  decode enc input = Some text ->
  try_encodings decode (before ++ enc :: after) input = Ok (readlines text).
Proof.
  induction 1 as [|e before He _ IH]; intros Henc; simpl.
  - now rewrite Henc.
  - rewrite He. now apply IH.
Qed.


Lemma item_raises {A} (l : list A) (i : nat) (e : exn) :
  item l i = Raise e -> e = IndexError.
Proof. unfold item. destruct (nth_error l i); congruence. Qed.

Ltac index_error :=
  repeat match goal with
  | H : Ok _ = Raise _ |- _ => discriminate H
  | H : Raise _ = Raise _ |- _ => injection H as H; subst
  | H : item _ _ = Raise _ |- _ => apply item_raises in H; subst
  | H : rbind ?r _ = Raise _ |- _ =>
      let E := fresh "E" in destruct r eqn:E; simpl in H
  | H : (if ?b then _ else _) = Raise _ |- _ => destruct b
  | |- IndexError = IndexError => reflexivity
  end.

Lemma scan_categories_raises (cats : list str) (m : Metadata) (e : exn) :
  scan_categories cats m = Raise e -> e = IndexError.
Proof.
  revert m. induction cats as [|cat cats IH]; intros m H; simpl in H.
  - discriminate.
  - destruct (startswith cat (py "已收入:")).
    + destruct (item (split cat (py ":")) 1) eqn:E1; simpl in H;
        [|index_error; congruence].
      destruct (item (split a (py ",")) 1) eqn:E2; simpl in H;
        [eauto | index_error; congruence].
    + destruct (startswith cat (py "已支出:")); [|eauto].
      destruct (item (split cat (py ":")) 1) eqn:E1; simpl in H;
        [|index_error; congruence].
      destruct (item (split a (py ",")) 1) eqn:E2; simpl in H;
        [eauto | index_error; congruence].
Qed.

Lemma scan_line_raises (line : str) (m : Metadata) (e : exn) :
  scan_line line m = Raise e -> e = IndexError.
Proof.
  unfold scan_line. intros H.
  destruct (startswith line (py "账号")); [index_error; congruence|].
  destruct (startswith line (py "起始日期")); [index_error; congruence|].
  destruct (startswith line (py "共")).
  - destruct (item _ 0) eqn:E; simpl in H; [|index_error; congruence].
    now apply scan_categories_raises in H.
  - destruct (startswith (strip line) (py "导出时间")); index_error; congruence.
Qed.

Lemma scan_lines_no_header (lines : list str) (m : Metadata) :
  Forall (fun line => startswith line (py "交易号") = false) lines ->
  scan_lines lines m = Raise UnboundLocalError
  \/ scan_lines lines m = Raise IndexError.
Proof.
  intros H. revert m. induction H as [|line lines Hline _ IH]; intros m; simpl.
  - now left.
  - destruct (scan_line line m) as [m'|e] eqn:E; simpl.
    + rewrite Hline. apply IH.
    + right. now rewrite (scan_line_raises _ _ _ E).
Qed.

(** The export time the reader keeps from a line of the statement is cut at
    the first colon of the time of day: it is the date alone. *)
Example export_time_is_date_only :
  scan_line (py "导出时间:[2024-02-01 10:00:00]" ++ [0x0A]) metadata0
  = Ok (set_export_time (export_time metadata_date_only) metadata0).
Proof. reflexivity. Qed.


(** C6 (what the code does; the claim is not met).  A file that none of
    utf-8, gbk and gb2312 decodes makes [parse_alipay_file] raise
    [TypeError], not a decoding error. *)
Theorem undecodable_file_raises_TypeError (input : list byte) :
  (forall enc, In enc encoding_list -> decode enc input = None) ->
  parse_alipay_file decode input = Raise TypeError
  /\ parse_alipay_file decode input <> Raise UnicodeDecodeError.
Proof.
  intros H.
  assert (E : parse_alipay_file decode input = Raise TypeError).
  { unfold parse_alipay_file.
    rewrite try_encodings_all_fail; [reflexivity|].
    apply List.Forall_forall. exact H. }
  split; [exact E|]. rewrite E. discriminate.
Qed.

(** C9.  A file that decodes and has no line beginning with the header
    label makes [parse_alipay_file] raise: [UnboundLocalError] when the
    scan of the lines got to the end (the transaction lines were never
    bound), or the [IndexError] of a metadata line met on the way.  It
    never returns a list of transactions with the metadata. *)
Theorem no_header_line_raises (input : list byte) (lines : list str) :
  try_encodings decode encoding_list input = Ok lines ->
  (forall line, In line lines -> startswith line (py "交易号") = false) ->
  (parse_alipay_file decode input = Raise UnboundLocalError
   \/ parse_alipay_file decode input = Raise IndexError)
  /\ forall transactions metadata,
       parse_alipay_file decode input <> Ok (transactions, metadata).
Proof.
  intros Hdec Hno.
  assert (H : parse_alipay_file decode input = Raise UnboundLocalError
              \/ parse_alipay_file decode input = Raise IndexError).
  { unfold parse_alipay_file, parse_lines. rewrite Hdec. simpl.
    destruct (scan_lines_no_header lines metadata0) as [E|E];
      [now apply List.Forall_forall | rewrite E; now left | rewrite E; now right]. }
  split; [exact H|].
  intros transactions metadata. destruct H as [E|E]; rewrite E; discriminate.
Qed.

End ReaderProperties.

(** ** The translation cache file *)






Lemma forallb_app_intro {A} (f : A -> bool) (a b : list A) :
  forallb f a = true -> forallb f b = true -> forallb f (a ++ b) = true.
Proof. intros Ha Hb. rewrite forallb_app, Ha, Hb. reflexivity. Qed.









Lemma startswith_nil (s : str) : startswith s [] = true.
Proof. destruct s; reflexivity. Qed.




(** ** Cache-backed translation *)

Section TranslationProperties.

Variable google : nat -> str -> option str -> str -> Response.

Lemma bind_ok {A B} (m : M A) (k : A -> M B) (w w' : World) (b : B) :
  bind m k w = (Ok b, w') ->
  exists a w1, m w = (Ok a, w1) /\ k a w1 = (Ok b, w').
Proof.
  unfold bind. destruct (m w) as [[a|e] w1]; intros H; [eauto | discriminate].
Qed.

(** [translate_text] touches neither the file nor the cache, and records
    its call. *)
Lemma translate_text_world (text : str) (target_lang api_key : option str)
    (w : World) :
  let call := {| call_text := text; call_target := target_lang;
                 call_key := api_key |} in
  (translate_text google text target_lang api_key w).2
  = {| written := written w; translations := translations w;
       calls := calls w ++ [call] |}.
Proof.
  unfold translate_text, bind, record_call, throw, lift. simpl.
  destruct api_key as [[|c key]|]; simpl; try reflexivity.
  destruct (google _ _ _ _); reflexivity.
Qed.

(** A text already in the cache: no call, no change, and the cached
    translation comes back with the text in parentheses. *)
Lemma translate_field_hit (text cached : str) (target_lang api_key : option str)
    (w : World) :
  translations w !! text = Some cached ->
  translate_field google text target_lang api_key w
  = (Ok (cached ++ py " (" ++ text ++ py ")"), w).
Proof.
  intros H. unfold translate_field, bind, get_translations, ret. simpl.
  rewrite H. simpl. rewrite H. reflexivity.
Qed.

(** A text not in the cache: the translator is called once; what it
    returns is stored and comes back with the text in parentheses, and
    what it raises is raised with the cache as it was. *)
Lemma translate_field_miss (text : str) (target_lang api_key : option str)
    (w : World) :
  translations w !! text = None ->
  let call := {| call_text := text; call_target := target_lang;
                 call_key := api_key |} in
  match (translate_text google text target_lang api_key w).1 with
  | Ok translated =>
    translate_field google text target_lang api_key w
    = (Ok (translated ++ py " (" ++ text ++ py ")"),
       {| written := written w;
          translations := <[text := translated]> (translations w);
          calls := calls w ++ [call] |})
  | Raise e =>
    translate_field google text target_lang api_key w
    = (Raise e,
       {| written := written w; translations := translations w;
          calls := calls w ++ [call] |})
  end.
Proof.
  intros H call.
  pose proof (translate_text_world text target_lang api_key w) as Hw.
  cbn zeta in Hw. fold call in Hw.
  destruct (translate_text google text target_lang api_key w) as [[t|e] w1] eqn:Et;
    cbn [fst snd] in *; subst w1;
    unfold translate_field, bind, get_translations; rewrite H, Et.
  - unfold set_translation, ret. cbn [translations].
    rewrite lookup_insert_eq. reflexivity.
  - reflexivity.
Qed.


(** C10.  Whatever a call of [translate_field] does (return or raise),
    every key of the cache keeps the value it had, except that the text
    may have been added when it was absent; so no entry is overwritten or
    removed and at most one is new. *)
Theorem translate_field_frame (text : str) (target_lang api_key : option str)
    (w : World) :
  let after := translations (translate_field google text target_lang api_key w).2 in
  (forall k : str,
     after !! k = translations w !! k
     \/ (k = text /\ translations w !! k = None))
  /\ (size after <= S (size (translations w)))%nat.
Proof.
  cbn zeta.
  destruct (translations w !! text) as [cached|] eqn:E.
  - rewrite (translate_field_hit _ _ _ _ _ E). cbn [snd].
    split; [now left | lia].
  - pose proof (translate_field_miss text target_lang api_key w E) as Hm.
    cbn zeta in Hm.
    destruct (translate_text google text target_lang api_key w).1 as [t|e];
      rewrite Hm; cbn [snd translations].
    + split.
      * intros k. destruct (decide (k = text)) as [->|Hne].
        -- right. now split.
        -- left. now apply lookup_insert_ne.
      * now rewrite map_size_insert_None.
    + split; [now left | lia].
Qed.

End TranslationProperties.

(** ** Dates *)




Section DateProperties.

Variable pad_year : bool.



End DateProperties.

(** ** The emitter *)

Section EmitterProperties.

Variable google : nat -> str -> option str -> str -> Response.
Variable pad_year : bool.

Lemma appends_ret {A} (a : A) : appends (ret a).
Proof. intros w. exists []. cbn. now rewrite app_nil_r. Qed.

Lemma appends_throw {A} (e : exn) : appends (@throw A e).
Proof. intros w. exists []. cbn. now rewrite app_nil_r. Qed.




Lemma translate_field_written (text : str) (target_lang api_key : option str)
    (w : World) :
  written (translate_field google text target_lang api_key w).2 = written w.
Proof.
  destruct (translations w !! text) as [cached|] eqn:E.
  - now rewrite (translate_field_hit _ _ _ _ _ _ E).
  - pose proof (translate_field_miss google text target_lang api_key w E) as Hm.
    cbn zeta in Hm.
    destruct (translate_text google text target_lang api_key w).1;
      now rewrite Hm.
Qed.

Lemma field_text_written (text : str) (target_lang api_key : option str)
    (w : World) :
  written (field_text google text target_lang api_key w).2 = written w.
Proof.
  unfold field_text. destruct (truthy target_lang);
    [apply translate_field_written | reflexivity].
Qed.




Lemma write_all_run (chunks : list str) (w : World) :
  write_all chunks w
  = (Ok tt, {| written := written w ++ chunks;
               translations := translations w; calls := calls w |}).
Proof.
  revert w. induction chunks as [|c chunks IH]; intros w; cbn [write_all].
  - unfold ret. rewrite app_nil_r. now destruct w.
  - unfold bind, write. rewrite IH. cbn [written translations calls].
    now rewrite <- app_assoc.
Qed.

Lemma write_ok (chunk : str) (w w1 : World) (u : unit) :
  write chunk w = (Ok u, w1) -> written w1 = written w ++ [chunk].
Proof. unfold write. now intros [= _ <-]. Qed.

Lemma lift_ok {A} (r : result A) (w w1 : World) (a : A) :
  lift r w = (Ok a, w1) -> r = Ok a /\ w1 = w.
Proof. unfold lift. now intros [= -> ->]. Qed.

Lemma ret_or_lift_ok {A} (s : str) (x : A) (r : result A) (w w1 : World) (a : A) :
  match s with
  | [] => ret x
  | _ :: _ => lift r
  end w = (Ok a, w1) -> w1 = w.
Proof. destruct s; unfold ret, lift; congruence. Qed.

Lemma field_text_ok (text : str) (target_lang api_key : option str)
    (w w1 : World) (s : str) :
  field_text google text target_lang api_key w = (Ok s, w1) ->
  written w1 = written w.
Proof.
  intros H. pose proof (field_text_written text target_lang api_key w) as E.
  now rewrite H in E.
Qed.






End EmitterProperties.

(** A sufficient condition for [generate_ofx] to return: no target
    language, and every date it formats is read by [format_ofx_datetime]. *)
Lemma generate_ofx_returns (google : nat -> str -> option str -> str -> Response)
    (pad_year : bool) (transactions : list Transaction) (metadata : Metadata)
    (api_key : option str) (w : World) :
  (exists s, format_ofx_datetime pad_year (export_time metadata) = Ok s) ->
  Forall (fun t => exists s,
            or_else (or_else (format_ofx_datetime pad_year (payment_time t))
                             (format_ofx_datetime pad_year (transaction_create_time t)))
                    (format_ofx_datetime pad_year (last_modified_time t)) = Ok s)
         transactions ->
  exists w', generate_ofx google pad_year transactions metadata None api_key w
             = (Ok tt, w').
Proof.
  intros [s Hs] Hts. unfold generate_ofx.
  unfold bind at 1. unfold open_w.
  unfold bind at 1. rewrite write_all_run.
  unfold bind at 1.
  assert (Hdt : exists d, forall w0,
            match export_time metadata with
            | [] => ret (py "20240101000000.000[+8:CST]")
            | _ :: _ => lift (format_ofx_datetime pad_year (export_time metadata))
            end w0 = (Ok d, w0)).
  { destruct (export_time metadata) eqn:E; [now eexists|].
    exists s. intros w0. unfold lift. now rewrite Hs. }
  destruct Hdt as [d Hd]. rewrite Hd.
  unfold bind at 1. rewrite write_all_run.
  unfold bind at 1.
  match goal with
  | |- context [emit_transactions _ _ _ _ _ ?w1] => generalize w1
  end.
  induction Hts as [|t ts [p Hp] _ IH]; intros w1.
  - cbn [emit_transactions]. unfold ret. rewrite write_all_run. eauto.
  - cbn [emit_transactions]. unfold bind at 1.
    unfold emit_transaction, bind, write, lift, field_text. rewrite Hp.
    cbn [truthy]. unfold ret. apply IH.
Qed.

(** ** Instances *)



Lemma undecodable_file_raises_TypeError_witness :
  parse_alipay_file sample_codec file_undecodable = Raise TypeError
  /\ parse_alipay_file sample_codec file_undecodable <> Raise UnicodeDecodeError.
Proof.
  apply (undecodable_file_raises_TypeError sample_codec file_undecodable).
  intros enc [<-|[<-|[<-|[]]]]; reflexivity.
Defined.

Lemma no_header_line_raises_witness :
  parse_alipay_file sample_codec file_no_header = Raise UnboundLocalError
  \/ parse_alipay_file sample_codec file_no_header = Raise IndexError.
Proof.
  apply (no_header_line_raises sample_codec file_no_header lines_no_header).
  - reflexivity.
  - intros line [<-|[<-|[]]]; reflexivity.
Defined.










(** * Further properties of the code *)

(** ** The reader *)

(** X1.  The encodings are tried in the order of the list and the first
    that decodes the file is the one whose text is parsed: encodings after
    it are not consulted, whatever they would give. *)
Theorem first_decodable_encoding_is_parsed
    (decode : Encoding -> list byte -> option str) (input : list byte)
    (before after : list Encoding) (enc : Encoding) (text : str) :
  encoding_list = before ++ enc :: after ->
  (forall e, In e before -> decode e input = None) ->
  decode enc input = Some text ->
  parse_alipay_file decode input = parse_lines (readlines text).
Proof.
  intros Hl Hb He. unfold parse_alipay_file. rewrite Hl.
  rewrite (try_encodings_first decode before after enc input text);
    [reflexivity | now apply List.Forall_forall | exact He].
Qed.

Lemma scan_lines_until_header (pre post : list str) (h : str) (m : Metadata) :
  Forall (fun line => startswith line (py "交易号") = false) pre ->
  startswith h (py "交易号") = true ->
  scan_lines (pre ++ h :: post) m
  = let* r := scan_lines (pre ++ [h]) m in Ok (r.1, post).
Proof.
  intros Hpre Hh. revert m.
  induction Hpre as [|line pre Hline _ IH]; intros m; cbn [app scan_lines].
  - destruct (scan_line h m) as [m'|e]; cbn [rbind]; [|reflexivity].
    now rewrite Hh.
  - destruct (scan_line line m) as [m'|e]; cbn [rbind]; [|reflexivity].
    rewrite Hline. apply IH.
Qed.

(** X2.  The scan stops at the first line that begins with the header
    label: the metadata come from the lines up to and including it, and
    every line after it, a summary or export-time line included, goes to
    the csv reader and never to the metadata. *)
Theorem lines_after_header_never_reach_metadata
    (pre post post' : list str) (h : str) :
  Forall (fun line => startswith line (py "交易号") = false) pre ->
  startswith h (py "交易号") = true ->
  (forall metadata rest,
     scan_lines (pre ++ h :: post) metadata0 = Ok (metadata, rest) ->
     rest = post
     /\ scan_lines (pre ++ h :: post') metadata0 = Ok (metadata, post'))
  /\ forall transactions transactions' metadata metadata',
       parse_lines (pre ++ h :: post) = Ok (transactions, metadata) ->
       parse_lines (pre ++ h :: post') = Ok (transactions', metadata') ->
       metadata = metadata'.
Proof.
  intros Hpre Hh.
  assert (Hscan : forall metadata rest,
     scan_lines (pre ++ h :: post) metadata0 = Ok (metadata, rest) ->
     rest = post
     /\ scan_lines (pre ++ h :: post') metadata0 = Ok (metadata, post')).
  { intros metadata rest H.
    rewrite (scan_lines_until_header pre post h _ Hpre Hh) in H.
    rewrite (scan_lines_until_header pre post' h _ Hpre Hh).
    destruct (scan_lines (pre ++ [h]) metadata0) as [[m r]|e];
      cbn [rbind fst] in *; [|discriminate].
    injection H as <- <-. now split. }
  split; [exact Hscan|].
  intros t t' md md' H H'. unfold parse_lines in H, H'.
  destruct (scan_lines (pre ++ h :: post) metadata0) as [[m r]|e] eqn:E;
    cbn [rbind fst snd] in H; [|discriminate].
  destruct (Hscan m r eq_refl) as [-> E']. rewrite E' in H'. cbn [rbind fst snd] in H'.
  destruct (csv_reader post); cbn [rbind] in H; [|discriminate].
  destruct (csv_reader post'); cbn [rbind] in H'; [|discriminate].
  congruence.
Qed.

(** White space at the two ends. *)
Lemma lstrip_head (s : str) : starts_with_space (lstrip s) = false.
Proof.
  induction s as [|c s IH]; [reflexivity|]. cbn [lstrip].
  destruct (isspace c) eqn:E; [exact IH|]. cbn [starts_with_space]. exact E.
Qed.

Lemma lstrip_id (s : str) : starts_with_space s = false -> lstrip s = s.
Proof.
  destruct s as [|c s]; [reflexivity|]. cbn [starts_with_space lstrip].
  now intros ->.
Qed.

Lemma lstrip_suffix (s : str) : exists p, s = p ++ lstrip s.
Proof.
  induction s as [|c s [p IH]]; [now exists []|]. cbn [lstrip].
  destruct (isspace c); [|now exists []].
  exists (c :: p). cbn [app]. now rewrite <- IH.
Qed.

Lemma strip_ends (s : str) :
  starts_with_space (strip s) = false
  /\ starts_with_space (rev (strip s)) = false.
Proof.
  unfold strip, rstrip. split.
  - destruct (lstrip_suffix (rev (lstrip s))) as [p Hp].
    pose proof (lstrip_head s) as Hs.
    assert (E : lstrip s = rev (lstrip (rev (lstrip s))) ++ rev p).
    { rewrite <- (rev_involutive (lstrip s)) at 1. rewrite Hp at 1.
      now rewrite rev_app_distr. }
    destruct (rev (lstrip (rev (lstrip s)))) as [|c u]; [reflexivity|].
    rewrite E in Hs. exact Hs.
  - rewrite rev_involutive. apply lstrip_head.
Qed.

Lemma strip_id (s : str) :
  starts_with_space s = false -> starts_with_space (rev s) = false ->
  strip s = s.
Proof.
  intros H1 H2. unfold strip, rstrip.
  now rewrite (lstrip_id s H1), (lstrip_id (rev s) H2), rev_involutive.
Qed.

Lemma strip_strip (s : str) : strip (strip s) = strip s.
Proof. destruct (strip_ends s). now apply strip_id. Qed.

Lemma collect_rows_stripped (rows : list (list str)) (acc : list Transaction) :
  Forall (fun t => Forall (fun f => strip f = f) (fields_of t)) acc ->
  Forall (fun t => Forall (fun f => strip f = f) (fields_of t))
         (collect_rows rows acc).
Proof.
  revert acc. induction rows as [|row rows IH]; intros acc Hacc; cbn [collect_rows].
  - exact Hacc.
  - destruct (List.length row <? 17)%nat; [now apply IH|].
    apply IH. rewrite Forall_app. split; [exact Hacc|].
    constructor; [|constructor].
    unfold fields_of, make_transaction, cell. cbn.
    repeat constructor; apply strip_strip.
Qed.

(** X3.  No field of a transaction that [parse_alipay_file] returns
    begins or ends with white space: each is stored stripped, so
    stripping it again changes nothing. *)
Theorem parsed_fields_are_stripped
    (decode : Encoding -> list byte -> option str) (input : list byte)
    (transactions : list Transaction) (metadata : Metadata) :
  parse_alipay_file decode input = Ok (transactions, metadata) ->
  forall t f, In t transactions -> In f (fields_of t) ->
    strip f = f
    /\ starts_with_space f = false /\ ends_with_space f = false.
Proof.
  unfold parse_alipay_file, parse_lines. intros H t f Ht Hf.
  destruct (try_encodings decode encoding_list input); cbn [rbind] in H; [|discriminate].
  destruct (scan_lines a metadata0) as [[m r]|]; cbn [rbind fst snd] in H; [|discriminate].
  destruct (csv_reader r) as [rows|]; cbn [rbind] in H; [|discriminate].
  injection H as <- _.
  pose proof (collect_rows_stripped rows [] (List.Forall_nil _)) as HF.
  rewrite List.Forall_forall in HF. specialize (HF t Ht).
  rewrite List.Forall_forall in HF. specialize (HF f Hf).
  split; [exact HF|]. unfold ends_with_space. rewrite <- HF. apply strip_ends.
Qed.

(** ** Dates that cannot be read *)

Lemma andthen_in {A B} (p : parser A) (f : A -> parser B) (s r : str) (b : B) :
  In (b, r) (andthen p f s) ->
  exists a r1, In (a, r1) (p s) /\ In (b, r) (f a r1).
Proof.
  unfold andthen. rewrite in_flat_map. intros [[a r1] [H1 H2]]. eauto.
Qed.

Lemma consumes_yield {A} (a : A) : consumes (yield a).
Proof. intros s a' r [[= _ <-]|[]]. now exists []. Qed.

Lemma consumes_dig (lo hi : N) : consumes (dig lo hi).
Proof.
  intros [|c s] a r H; cbn [dig] in H; [destruct H|].
  destruct (_ && _); [|destruct H].
  destruct H as [[= _ <-]|[]]. now exists [c].
Qed.

Lemma consumes_lit (c : char) : consumes (lit c).
Proof.
  intros [|d s] a r H; cbn [lit] in H; [destruct H|].
  destruct (d =? c); [|destruct H].
  destruct H as [[= _ <-]|[]]. now exists [d].
Qed.

Lemma consumes_alt {A} (p q : parser A) :
  consumes p -> consumes q -> consumes (alt p q).
Proof.
  intros Hp Hq s a r H. unfold alt in H. apply in_app_or in H as [H|H]; eauto.
Qed.

Lemma consumes_andthen {A B} (p : parser A) (f : A -> parser B) :
  consumes p -> (forall a, consumes (f a)) -> consumes (andthen p f).
Proof.
  intros Hp Hf s b r H. apply andthen_in in H as (a & r1 & H1 & H2).
  destruct (Hp _ _ _ H1) as [pre1 ->]. destruct (Hf a _ _ _ H2) as [pre2 ->].
  exists (pre1 ++ pre2). now rewrite app_assoc.
Qed.

Lemma consumes_dig2 (a b c d : N) : consumes (dig2 a b c d).
Proof.
  unfold dig2. apply consumes_andthen; [apply consumes_dig|]. intros x.
  apply consumes_andthen; [apply consumes_dig|]. intros y. apply consumes_yield.
Qed.

Ltac consumes_tac :=
  repeat first
    [ apply consumes_dig2 | apply consumes_dig | apply consumes_lit
    | apply consumes_yield | apply consumes_alt
    | apply consumes_andthen; [|intros ?] ].

Lemma consumes_re_Y : consumes re_Y.
Proof. unfold re_Y. consumes_tac. Qed.

Lemma consumes_re_m : consumes re_m.
Proof. unfold re_m. consumes_tac. Qed.

Lemma consumes_re_d : consumes re_d.
Proof. unfold re_d. consumes_tac. Qed.

Lemma spaces_in (s r : str) (u : unit) :
  In (u, r) (spaces s) -> exists c s', s = c :: s' /\ isspace c = true.
Proof.
  destruct s as [|c s']; cbn [spaces]; [intros []|].
  destruct (isspace c) eqn:E; [eauto | intros []].
Qed.

(** The expression has [\s+] between the date and the time: a string that
    matches holds a white-space character. *)
Lemma re_datetime_space (s r : str) (dt : datetime) :
  In (dt, r) (re_datetime s) -> exists c, In c s /\ isspace c = true.
Proof.
  unfold re_datetime. intros H.
  apply andthen_in in H as (Y & r1 & H1 & H). apply consumes_re_Y in H1 as [p1 ->].
  apply andthen_in in H as (u1 & r2 & H2 & H). apply consumes_lit in H2 as [p2 ->].
  apply andthen_in in H as (m & r3 & H3 & H). apply consumes_re_m in H3 as [p3 ->].
  apply andthen_in in H as (u2 & r4 & H4 & H). apply consumes_lit in H4 as [p4 ->].
  apply andthen_in in H as (d & r5 & H5 & H). apply consumes_re_d in H5 as [p5 ->].
  apply andthen_in in H as (u3 & r6 & H6 & _).
  apply spaces_in in H6 as (c & s' & -> & Hc).
  exists c. split; [|exact Hc].
  rewrite !in_app_iff. do 5 right. now left.
Qed.

Lemma strptime_space (s : str) (dt : datetime) :
  strptime s = Ok dt -> exists c, In c s /\ isspace c = true.
Proof.
  unfold strptime. destruct (re_datetime s) as [|[dt' r] l] eqn:E; [discriminate|].
  intros _. apply (re_datetime_space s r dt'). rewrite E. now left.
Qed.

Lemma strptime_raises (s : str) (e : exn) :
  strptime s = Raise e -> e = ValueError.
Proof.
  unfold strptime. destruct (re_datetime s) as [|[dt' [|c r]] l];
    try (intros [= <-]; reflexivity).
  destruct (valid_datetime dt'); [discriminate|]. now intros [= <-].
Qed.

Lemma spaceless_in (s : str) (c : char) :
  spaceless s = true -> In c s -> isspace c = false.
Proof.
  unfold spaceless. rewrite forallb_forall. intros H Hc.
  apply negb_true_iff. now apply H.
Qed.

Lemma spaceless_head (s : str) : spaceless s = true -> starts_with_space s = false.
Proof.
  destruct s as [|c s]; [reflexivity|]. intros H. cbn [starts_with_space].
  apply (spaceless_in _ c H). now left.
Qed.

Lemma spaceless_rev (s : str) : spaceless s = true -> spaceless (rev s) = true.
Proof.
  unfold spaceless. rewrite !forallb_forall. intros H c Hc.
  apply H. now apply in_rev.
Qed.

Lemma spaceless_strip (s : str) : spaceless s = true -> strip s = s.
Proof.
  intros H. apply strip_id; apply spaceless_head; [exact H | now apply spaceless_rev].
Qed.

Lemma format_ofx_datetime_refuses_spaceless_aux (pad_year : bool) (s : str) :
  s <> [] -> spaceless s = true ->
  format_ofx_datetime pad_year s = Raise ValueError.
Proof.
  intros Hne Hs. unfold format_ofx_datetime.
  rewrite (spaceless_strip s Hs).
  rewrite (bool_decide_eq_false_2 _ Hne). cbn [orb].
  destruct (strptime s) as [dt|e] eqn:E; cbn [rbind].
  - apply strptime_space in E as (c & Hc & Hsp).
    now rewrite (spaceless_in s c Hs Hc) in Hsp.
  - now rewrite (strptime_raises s e E).
Qed.

(** X4.  [format_ofx_datetime] raises [ValueError] on every string that is
    not empty and holds no white space: the format asks for white space
    between the date and the time, so a date alone, however well formed,
    is refused; and whatever it does accept holds white space. *)
Theorem format_ofx_datetime_refuses_spaceless (pad_year : bool) (s : str) :
  s <> [] -> spaceless s = true ->
  format_ofx_datetime pad_year s = Raise ValueError
  /\ forall out, format_ofx_datetime pad_year s <> Ok out.
Proof.
  intros Hne Hs.
  rewrite (format_ofx_datetime_refuses_spaceless_aux pad_year s Hne Hs).
  split; [reflexivity | discriminate].
Qed.

(** *** The export time the reader keeps *)

Lemma split_ws_from_spaceless (s cur : str) :
  spaceless cur = true ->
  Forall (fun t => spaceless t = true) (split_ws_from s cur).
Proof.
  revert cur. induction s as [|c s IH]; intros cur Hcur; cbn [split_ws_from].
  - destruct cur; [constructor|]. constructor; [|constructor].
    now apply spaceless_rev.
  - destruct (isspace c) eqn:E.
    + destruct cur; [now apply IH|].
      constructor; [now apply spaceless_rev | now apply IH].
    + apply IH. unfold spaceless in *. cbn [forallb]. now rewrite E, Hcur.
Qed.

Lemma item_spaceless (l : list str) (i : nat) (t : str) :
  Forall (fun t => spaceless t = true) l -> item l i = Ok t ->
  spaceless t = true.
Proof.
  unfold item. intros Hl H. destruct (nth_error l i) as [x|] eqn:E; [|discriminate].
  injection H as <-. rewrite List.Forall_forall in Hl. apply Hl.
  eapply nth_error_In. exact E.
Qed.

Lemma spaceless_drop (n : nat) (s : str) :
  spaceless s = true -> spaceless (drop n s) = true.
Proof.
  unfold spaceless. rewrite !forallb_forall. intros H c Hc. apply H.
  apply list_elem_of_In. apply (subseteq_drop n s). now apply list_elem_of_In.
Qed.

Lemma scan_categories_export_time (cats : list str) (m m' : Metadata) :
  scan_categories cats m = Ok m' -> export_time m' = export_time m.
Proof.
  revert m. induction cats as [|cat cats IH]; intros m H; cbn [scan_categories] in H.
  - now injection H as <-.
  - destruct (startswith cat (py "已收入:")).
    + destruct (item _ 1) as [a|]; cbn [rbind] in H; [|discriminate].
      destruct (item _ 1) as [v|]; cbn [rbind] in H; [|discriminate].
      now rewrite (IH _ H).
    + destruct (startswith cat (py "已支出:")); [|now apply IH].
      destruct (item _ 1) as [a|]; cbn [rbind] in H; [|discriminate].
      destruct (item _ 1) as [v|]; cbn [rbind] in H; [|discriminate].
      now rewrite (IH _ H).
Qed.

Lemma scan_line_export_time (line : str) (m m' : Metadata) :
  scan_line line m = Ok m' -> spaceless (export_time m) = true ->
  spaceless (export_time m') = true.
Proof.
  unfold scan_line. intros H Hm.
  destruct (startswith line (py "账号")).
  { destruct (item _ 1); cbn [rbind] in H; [|discriminate]. now injection H as <-. }
  destruct (startswith line (py "起始日期")).
  { destruct (item _ 0); cbn [rbind] in H; [|discriminate].
    destruct (item _ 1); cbn [rbind] in H; [|discriminate].
    destruct (item _ 2); cbn [rbind] in H; [|discriminate].
    destruct (item _ 1); cbn [rbind] in H; [|discriminate].
    destruct (item _ 0); cbn [rbind] in H; [|discriminate].
    now injection H as <-. }
  destruct (startswith line (py "共")).
  { destruct (item _ 0); cbn [rbind] in H; [|discriminate].
    apply scan_categories_export_time in H. now rewrite H. }
  destruct (startswith (strip line) (py "导出时间")); [|now injection H as <-].
  destruct (item _ 1) as [a|]; cbn [rbind] in H; [|discriminate].
  destruct (item (split_ws (strip a)) 0) as [t|] eqn:Et; cbn [rbind] in H; [|discriminate].
  injection H as <-. cbn [export_time set_export_time].
  apply spaceless_drop. eapply item_spaceless; [|exact Et].
  now apply split_ws_from_spaceless.
Qed.

Lemma scan_lines_export_time (lines rest : list str) (m m' : Metadata) :
  scan_lines lines m = Ok (m', rest) -> spaceless (export_time m) = true ->
  spaceless (export_time m') = true.
Proof.
  revert m. induction lines as [|line lines IH]; intros m H Hm; cbn [scan_lines] in H.
  - discriminate.
  - destruct (scan_line line m) as [m1|] eqn:E; cbn [rbind] in H; [|discriminate].
    pose proof (scan_line_export_time _ _ _ E Hm) as H1.
    destruct (startswith line (py "交易号")); [now injection H as <- _|].
    now apply (IH m1).
Qed.

Lemma parsed_export_time_spaceless
    (decode : Encoding -> list byte -> option str) (input : list byte)
    (transactions : list Transaction) (metadata : Metadata) :
  parse_alipay_file decode input = Ok (transactions, metadata) ->
  spaceless (export_time metadata) = true.
Proof.
  unfold parse_alipay_file, parse_lines. intros H.
  destruct (try_encodings decode encoding_list input) as [lines|];
    cbn [rbind] in H; [|discriminate].
  destruct (scan_lines lines metadata0) as [[m r]|] eqn:E;
    cbn [rbind fst snd] in H; [|discriminate].
  destruct (csv_reader r); cbn [rbind] in H; [|discriminate].
  injection H as _ <-. now apply (scan_lines_export_time _ _ _ _ E).
Qed.

(** X5.  The export time the reader takes from a statement never holds
    white space (it is cut at the first colon and at the first blank), so
    what [parse_alipay_file] returns with an export time that is not empty
    makes [generate_ofx] raise [ValueError] once the sixteen lines of the
    header are written, whatever the transactions, the target language and
    the key: no statement whose export-time line was read is converted. *)
Theorem parsed_export_time_stops_generate_ofx
    (decode : Encoding -> list byte -> option str) (input : list byte)
    (transactions : list Transaction) (metadata : Metadata)
    (google : nat -> str -> option str -> str -> Response) (pad_year : bool)
    (target_lang api_key : option str) (w : World) :
  parse_alipay_file decode input = Ok (transactions, metadata) ->
  export_time metadata <> [] ->
  generate_ofx google pad_year transactions metadata target_lang api_key w
  = (Raise ValueError,
     {| written :=
          [ ln "OFXHEADER:100"; ln "DATA:OFXSGML"; ln "VERSION:102";
            ln "SECURITY:NONE"; ln "ENCODING:UTF-8"; ln "CHARSET:NONE";
            ln "COMPRESSION:NONE"; ln "OLDFILEUID:NONE"; ln "NEWFILEUID:NONE";
            ln "<OFX>"; ln "  <SIGNONMSGSRSV1>"; ln "    <SONRS>";
            ln "      <STATUS>"; ln "        <CODE>0</CODE>";
            ln "        <SEVERITY>INFO</SEVERITY>"; ln "      </STATUS>" ];
        translations := translations w; calls := calls w |}).
Proof.
  intros Hp Hne.
  pose proof (format_ofx_datetime_refuses_spaceless_aux pad_year (export_time metadata)
                Hne (parsed_export_time_spaceless _ _ _ _ Hp)) as Hf.
  unfold generate_ofx. unfold bind at 1. unfold open_w.
  unfold bind at 1. rewrite write_all_run.
  unfold bind at 1.
  destruct (export_time metadata) as [|c s] eqn:E; [contradiction|].
  unfold lift. rewrite Hf. reflexivity.
Qed.

(** ** The emitter: cache, translator and document *)

Section EmitterInvariants.

Variable google : nat -> str -> option str -> str -> Response.
Variable pad_year : bool.

Lemma translates_once_pure {A} (m : M A) :
  (forall w, translations (m w).2 = translations w /\ calls (m w).2 = calls w) ->
  translates_once m.
Proof.
  intros H w. destruct (H w) as [Ht Hc]. exists [].
  rewrite Hc, app_nil_r. split; [reflexivity|]. split; [constructor|].
  split; [intros c []|]. split; [intros k; left; now rewrite Ht|].
  intros a _ c [].
Qed.

Lemma translates_once_ret {A} (a : A) : translates_once (ret a).
Proof. now apply translates_once_pure. Qed.

Lemma translates_once_throw {A} (e : exn) : translates_once (@throw A e).
Proof. now apply translates_once_pure. Qed.

Lemma translates_once_lift {A} (r : result A) : translates_once (lift r).
Proof. now apply translates_once_pure. Qed.

Lemma translates_once_write (chunk : str) : translates_once (write chunk).
Proof. now apply translates_once_pure. Qed.

Lemma translates_once_open_w : translates_once open_w.
Proof. now apply translates_once_pure. Qed.

Lemma translates_once_write_all (chunks : list str) : translates_once (write_all chunks).
Proof. apply translates_once_pure. intros w. now rewrite write_all_run. Qed.

Lemma translates_once_bind {A B} (m : M A) (k : A -> M B) :
  translates_once m -> (forall a, translates_once (k a)) ->
  translates_once (bind m k).
Proof.
  intros Hm Hk w. unfold bind.
  destruct (Hm w) as (new1 & Hc1 & Hd1 & Ha1 & Hf1 & Hs1).
  destruct (m w) as [[a|e] w1]; cbn [fst snd] in *.
  2: { exists new1. repeat split; auto. intros a [=]. }
  destruct (Hk a w1) as (new2 & Hc2 & Hd2 & Ha2 & Hf2 & Hs2).
  destruct (k a w1) as [r w2]; cbn [fst snd] in *.
  specialize (Hs1 a eq_refl).
  assert (Hback : forall x, translations w1 !! x = None -> translations w !! x = None).
  { intros x Hx. destruct (Hf1 x) as [E|[E _]]; [now rewrite <- E | exact E]. }
  exists (new1 ++ new2). rewrite Hc2, Hc1, app_assoc.
  split; [reflexivity|]. split; [|split; [|split]].
  - rewrite fmap_app. apply NoDup_app. split; [exact Hd1|]. split; [|exact Hd2].
    intros x Hx1 Hx2.
    apply list_elem_of_fmap in Hx1 as (c1 & -> & Hc1').
    apply list_elem_of_fmap in Hx2 as (c2 & Heq & Hc2').
    apply list_elem_of_In in Hc1', Hc2'.
    destruct (Hs1 c1 Hc1') as [v Hv]. pose proof (Ha2 c2 Hc2') as Hn.
    rewrite <- Heq in Hn. congruence.
  - intros c Hc. apply in_app_or in Hc as [Hc|Hc]; [now apply Ha1|].
    apply Hback. now apply Ha2.
  - intros x. rewrite fmap_app.
    destruct (Hf2 x) as [E2|[E2 Hin2]].
    + destruct (Hf1 x) as [E1|[E1 Hin1]].
      * left. congruence.
      * right. split; [exact E1|]. apply in_or_app. now left.
    + right. split; [now apply Hback|]. apply in_or_app. now right.
  - intros b -> c Hc. apply in_app_or in Hc as [Hc|Hc].
    + destruct (Hs1 c Hc) as [v Hv].
      destruct (Hf2 (call_text c)) as [E|[E _]]; [|congruence].
      rewrite E. eauto.
    + now apply (Hs2 b eq_refl).
Qed.

Lemma translates_once_translate_field (text : str) (target_lang api_key : option str) :
  translates_once (translate_field google text target_lang api_key).
Proof.
  intros w. destruct (translations w !! text) as [cached|] eqn:E.
  - rewrite (translate_field_hit _ _ _ _ _ _ E). cbn [fst snd].
    exists []. rewrite app_nil_r. split; [reflexivity|]. split; [constructor|].
    split; [intros c []|]. split; [now left|]. intros a _ c [].
  - pose proof (translate_field_miss google text target_lang api_key w E) as Hm.
    cbn zeta in Hm.
    exists [{| call_text := text; call_target := target_lang; call_key := api_key |}].
    destruct (translate_text google text target_lang api_key w).1 as [t|e];
      rewrite Hm; cbn [fst snd translations calls].
    + split; [reflexivity|]. split; [repeat constructor; now intros ?%elem_of_nil|].
      split; [intros c [<-|[]]; exact E|]. split.
      * intros k. destruct (decide (k = text)) as [->|Hne].
        -- right. split; [exact E | now left].
        -- left. now apply lookup_insert_ne.
      * intros a _ c [<-|[]]. cbn [call_text]. rewrite lookup_insert_eq. eauto.
    + split; [reflexivity|]. split; [repeat constructor; now intros ?%elem_of_nil|].
      split; [intros c [<-|[]]; exact E|]. split; [now left|]. intros a [=].
Qed.

Lemma translates_once_field_text (text : str) (target_lang api_key : option str) :
  translates_once (field_text google text target_lang api_key).
Proof.
  unfold field_text. destruct (truthy target_lang);
    [apply translates_once_translate_field | apply translates_once_ret].
Qed.

Ltac translates_once_tac :=
  repeat first
    [ apply translates_once_bind; [|intros ?]
    | apply translates_once_lift | apply translates_once_write
    | apply translates_once_ret | apply translates_once_open_w
    | apply translates_once_write_all | apply translates_once_field_text ].

Lemma translates_once_emit_transaction (target_lang api_key : option str)
    (t : Transaction) :
  translates_once (emit_transaction google pad_year target_lang api_key t).
Proof. unfold emit_transaction. translates_once_tac. Qed.

Lemma translates_once_emit_transactions (target_lang api_key : option str)
    (ts : list Transaction) :
  translates_once (emit_transactions google pad_year target_lang api_key ts).
Proof.
  induction ts as [|t ts IH]; cbn [emit_transactions].
  - apply translates_once_ret.
  - apply translates_once_bind; [apply translates_once_emit_transaction|].
    intros _. exact IH.
Qed.

Lemma translates_once_generate_ofx (transactions : list Transaction)
    (metadata : Metadata) (target_lang api_key : option str) :
  translates_once (generate_ofx google pad_year transactions metadata
                     target_lang api_key).
Proof.
  unfold generate_ofx.
  apply translates_once_bind; [apply translates_once_open_w|]. intros _.
  apply translates_once_bind; [apply translates_once_write_all|]. intros _.
  apply translates_once_bind.
  { destruct (export_time metadata);
      [apply translates_once_ret | apply translates_once_lift]. }
  intros dt.
  apply translates_once_bind; [apply translates_once_write_all|]. intros _.
  apply translates_once_bind; [apply translates_once_emit_transactions|]. intros _.
  apply translates_once_write_all.
Qed.

(** X6.  In one run of [generate_ofx], whether it returns or raises, no
    text is sent to the translator twice and no text that was in the cache
    is sent at all: the texts of the calls it adds are distinct from one
    another and absent from the cache it was given. *)
Theorem generate_ofx_translates_each_text_once
    (transactions : list Transaction) (metadata : Metadata)
    (target_lang api_key : option str) (w : World) :
  exists new,
    calls (generate_ofx google pad_year transactions metadata
             target_lang api_key w).2 = calls w ++ new
    /\ NoDup (call_text <$> new)
    /\ forall c, In c new -> translations w !! call_text c = None.
Proof.
  destruct (translates_once_generate_ofx transactions metadata target_lang
              api_key w) as (new & Hc & Hd & Ha & _).
  exists new. auto.
Qed.

(** X7.  A run of [generate_ofx], whether it returns or raises, never
    changes or removes an entry of the cache: every key that had a
    translation still has the same one, and a key that is new is a text
    the translator was called for in that run. *)
Theorem generate_ofx_cache_only_grows
    (transactions : list Transaction) (metadata : Metadata)
    (target_lang api_key : option str) (w : World) :
  let after := (generate_ofx google pad_year transactions metadata
                  target_lang api_key w).2 in
  (forall k v, translations w !! k = Some v -> translations after !! k = Some v)
  /\ forall k v, translations w !! k = None -> translations after !! k = Some v ->
       exists c, In c (drop (List.length (calls w)) (calls after))
                 /\ call_text c = k.
Proof.
  cbn zeta.
  destruct (translates_once_generate_ofx transactions metadata target_lang
              api_key w) as (new & Hc & _ & _ & Hf & _).
  split.
  - intros k v Hk. destruct (Hf k) as [E|[E _]]; congruence.
  - intros k v Hk Hv. rewrite Hc, drop_app_length.
    destruct (Hf k) as [E|[_ Hin]]; [congruence|].
    apply list_elem_of_In, list_elem_of_fmap in Hin as (c & -> & Hin).
    exists c. split; [now apply list_elem_of_In | reflexivity].
Qed.

End EmitterInvariants.

Section DocumentProperties.

Variable google : nat -> str -> option str -> str -> Response.
Variable pad_year : bool.

Lemma name_text_mono (target_lang : option str) (c1 c2 : gmap str str)
    (text s : str) :
  (forall k v, c1 !! k = Some v -> c2 !! k = Some v) ->
  name_text target_lang c1 text s -> name_text target_lang c2 text s.
Proof.
  unfold name_text. intros Hm. destruct (truthy target_lang); [|auto].
  intros (t & Ht & ->). exists t. auto.
Qed.

Lemma posted_date_of (t : Transaction) (d : str) :
  or_else (or_else (format_ofx_datetime pad_year (payment_time t))
                   (format_ofx_datetime pad_year (transaction_create_time t)))
          (format_ofx_datetime pad_year (last_modified_time t)) = Ok d ->
  posted_date pad_year t match d with
                         | [] => py "19700101000000.000[+0:GMT]"
                         | _ :: _ => d
                         end.
Proof. intros H. exists d. now split. Qed.

Lemma keeps_entries {A} (m : M A) (w : World) :
  translates_once m ->
  forall k v, translations w !! k = Some v -> translations (m w).2 !! k = Some v.
Proof.
  intros Hm k v Hk. destruct (Hm w) as (new & _ & _ & _ & Hf & _).
  destruct (Hf k) as [E|[E _]]; congruence.
Qed.

Lemma field_text_name (text : str) (target_lang api_key : option str)
    (w w1 : World) (s : str) :
  field_text google text target_lang api_key w = (Ok s, w1) ->
  name_text target_lang (translations w1) text s.
Proof.
  unfold field_text, name_text. destruct (truthy target_lang).
  - intros H. destruct (translations w !! text) as [cached|] eqn:E.
    + rewrite (translate_field_hit _ _ _ _ _ _ E) in H. injection H as <- <-. eauto.
    + pose proof (translate_field_miss google text target_lang api_key w E) as Hm.
      cbn zeta in Hm.
      destruct (translate_text google text target_lang api_key w).1 as [t|e];
        rewrite Hm in H; [|discriminate].
      injection H as <- <-. exists t. cbn [translations].
      now rewrite lookup_insert_eq.
  - unfold ret. now intros [= <- _].
Qed.

Lemma write_ok_cache (chunk : str) (w w1 : World) (u : unit) :
  write chunk w = (Ok u, w1) -> translations w1 = translations w.
Proof. unfold write. now intros [= _ <-]. Qed.

(** A transaction whose block is completed: the block, with the date and
    the texts that went into it, read against the cache as it is then. *)
Lemma emit_transaction_block (target_lang api_key : option str)
    (t : Transaction) (w w' : World) :
  emit_transaction google pad_year target_lang api_key t w = (Ok tt, w') ->
  exists block,
    written w' = written w ++ block
    /\ block_of pad_year target_lang (translations w') t block.
Proof.
  unfold emit_transaction. intros H.
  apply bind_ok in H as (u1 & w1 & H1 & H). apply write_ok in H1.
  apply bind_ok in H as (u2 & w2 & H2 & H). apply write_ok in H2.
  apply bind_ok in H as (dt & w3 & H3 & H). apply lift_ok in H3 as [Hdt ->].
  apply bind_ok in H as (u4 & w4 & H4 & H). apply write_ok in H4.
  apply bind_ok in H as (u5 & w5 & H5 & H). apply write_ok in H5.
  apply bind_ok in H as (u6 & w6 & H6 & H). apply write_ok in H6.
  apply bind_ok in H as (name & w7 & H7 & H).
  pose proof (field_text_name _ _ _ _ _ _ H7) as Hname. apply field_text_ok in H7.
  apply bind_ok in H as (u8 & w8 & H8 & H).
  pose proof (write_ok_cache _ _ _ _ H8) as C8. apply write_ok in H8.
  apply bind_ok in H as (memo & w9 & H9 & H).
  pose proof (field_text_name _ _ _ _ _ _ H9) as Hmemo.
  assert (M9 : forall k v, translations w8 !! k = Some v ->
                           translations w9 !! k = Some v).
  { intros k v Hk.
    pose proof (keeps_entries _ w8
      (translates_once_field_text google (item_name t) target_lang api_key) k v Hk) as E.
    now rewrite H9 in E. }
  apply field_text_ok in H9.
  apply bind_ok in H as (u10 & w10 & H10 & H).
  pose proof (write_ok_cache _ _ _ _ H10) as C10. apply write_ok in H10.
  pose proof (write_ok_cache _ _ _ _ H) as C11. apply write_ok in H.
  eexists. split.
  - rewrite H, H10, H9, H8, H7, H6, H5, H4, H2, H1.
    rewrite <- !app_assoc. reflexivity.
  - exists match dt with
           | [] => py "19700101000000.000[+0:GMT]"
           | _ :: _ => dt
           end, name, memo.
    split; [reflexivity|]. split; [now apply posted_date_of|].
    rewrite C11, C10. split; [|exact Hmemo].
    apply (name_text_mono _ (translations w7)); [|exact Hname].
    intros k v Hk. apply M9. now rewrite C8.
Qed.

Lemma block_of_mono (target_lang : option str) (c1 c2 : gmap str str)
    (t : Transaction) (block : list str) :
  (forall k v, c1 !! k = Some v -> c2 !! k = Some v) ->
  block_of pad_year target_lang c1 t block ->
  block_of pad_year target_lang c2 t block.
Proof.
  intros Hm (dt & name & memo & Hb & Hd & Hn & Hmm).
  exists dt, name, memo. repeat split; eauto using name_text_mono.
Qed.

Lemma emit_transactions_blocks (target_lang api_key : option str)
    (ts : list Transaction) (w w' : World) :
  emit_transactions google pad_year target_lang api_key ts w = (Ok tt, w') ->
  exists blocks,
    Forall2 (block_of pad_year target_lang (translations w')) ts blocks
    /\ written w' = written w ++ concat blocks.
Proof.
  revert w. induction ts as [|t ts IH]; intros w H; cbn [emit_transactions] in H.
  - injection H as <-. exists []. split; [constructor|]. cbn. now rewrite app_nil_r.
  - apply bind_ok in H as ([] & w1 & H1 & H).
    pose proof (keeps_entries _ w1
      (translates_once_emit_transactions google pad_year target_lang api_key ts)) as Hm.
    rewrite H in Hm. cbn [snd] in Hm.
    apply emit_transaction_block in H1 as (block & E1 & Hb).
    apply IH in H as (blocks & HF & E).
    exists (block :: blocks). split.
    + constructor; [|exact HF]. now apply (block_of_mono _ (translations w1)).
    + rewrite E, E1. cbn [concat]. now rewrite <- app_assoc.
Qed.

(** A run of [generate_ofx] that returns: the whole document. *)
Lemma generate_ofx_document (transactions : list Transaction) (metadata : Metadata)
    (target_lang api_key : option str) (w w' : World) :
  generate_ofx google pad_year transactions metadata target_lang api_key w
  = (Ok tt, w') ->
  exists dt_server blocks,
    server_date pad_year metadata dt_server
    /\ Forall2 (block_of pad_year target_lang (translations w')) transactions blocks
    /\ written w'
       = ofx_prologue metadata dt_server ++ concat blocks
         ++ ofx_epilogue metadata dt_server.
Proof.
  unfold generate_ofx. intros H.
  apply bind_ok in H as (u0 & w0 & H0 & H).
  unfold open_w in H0. injection H0 as _ <-.
  apply bind_ok in H as (u1 & w1 & H1 & H).
  rewrite write_all_run in H1. injection H1 as _ <-.
  apply bind_ok in H as (dt_server & w2 & H2 & H).
  assert (Hdt : server_date pad_year metadata dt_server).
  { unfold server_date. destruct (export_time metadata).
    - unfold ret in H2. now injection H2 as <- _.
    - now apply lift_ok in H2 as [-> _]. }
  apply ret_or_lift_ok in H2. subst w2.
  apply bind_ok in H as (u3 & w3 & H3 & H).
  rewrite write_all_run in H3. injection H3 as _ <-.
  apply bind_ok in H as ([] & w4 & H4 & H).
  apply emit_transactions_blocks in H4 as (blocks & HF & E4).
  rewrite write_all_run in H. injection H as <-.
  cbn [written translations] in *. rewrite E4.
  exists dt_server, blocks. split; [exact Hdt|]. split; [exact HF|].
  unfold ofx_prologue, ofx_epilogue. cbn [app].
  first [reflexivity | rewrite <- app_assoc; reflexivity].
Qed.




Lemma quiet_bind {A B} (m : M A) (k : A -> M B) :
  quiet m -> (forall a, quiet (k a)) -> quiet (bind m k).
Proof.
  intros Hm Hk w. unfold bind. destruct (Hm w) as [E1 E2].
  destruct (m w) as [[a|e] w1]; cbn [snd] in *; [|now split].
  destruct (Hk a w1) as [E3 E4]. split; congruence.
Qed.

Lemma quiet_write_all (chunks : list str) : quiet (write_all chunks).
Proof. intros w. now rewrite write_all_run. Qed.

Lemma quiet_field_text (text : str) (target_lang api_key : option str) :
  truthy target_lang = false ->
  quiet (field_text google text target_lang api_key).
Proof. intros H w. unfold field_text. now rewrite H. Qed.

Lemma quiet_emit_transactions (target_lang api_key : option str)
    (ts : list Transaction) :
  truthy target_lang = false ->
  quiet (emit_transactions google pad_year target_lang api_key ts).
Proof.
  intros Hl. induction ts as [|t ts IH]; cbn [emit_transactions]; [now intros w|].
  apply quiet_bind; [|intros _; exact IH].
  unfold emit_transaction.
  repeat first
    [ apply quiet_bind; [|intros ?]
    | now apply quiet_field_text
    | now intros ? ].
Qed.

(** X11.  Without a target language [generate_ofx] leaves the cache and
    the translator alone, whether it returns or raises: no call is made
    and the cache is what it was. *)
Theorem generate_ofx_without_language_is_quiet
    (transactions : list Transaction) (metadata : Metadata)
    (target_lang api_key : option str) (w : World) :
  truthy target_lang = false ->
  translations (generate_ofx google pad_year transactions metadata
                  target_lang api_key w).2 = translations w
  /\ calls (generate_ofx google pad_year transactions metadata
              target_lang api_key w).2 = calls w.
Proof.
  intros Hl. revert w. change (quiet (generate_ofx google pad_year transactions
                                        metadata target_lang api_key)).
  unfold generate_ofx.
  apply quiet_bind; [now intros w|]. intros _.
  apply quiet_bind; [apply quiet_write_all|]. intros _.
  apply quiet_bind; [destruct (export_time metadata); now intros w|]. intros dt.
  apply quiet_bind; [apply quiet_write_all|]. intros _.
  apply quiet_bind; [now apply quiet_emit_transactions|]. intros _.
  apply quiet_write_all.
Qed.

End DocumentProperties.

(** ** The cache file: lines that do not load *)

Lemma occurrences_app (c : char) (a b : str) :
  occurrences c (a ++ b) = (occurrences c a + occurrences c b)%nat.
Proof. unfold occurrences. now rewrite List.filter_app, length_app. Qed.

Lemma occurrences_rev (c : char) (s : str) :
  occurrences c (rev s) = occurrences c s.
Proof.
  induction s as [|x s IH]; [reflexivity|]. cbn [rev].
  rewrite occurrences_app, IH. unfold occurrences. cbn [List.filter].
  destruct (x =? c); cbn [List.length]; lia.
Qed.

Lemma occurrences_lstrip (c : char) (s : str) :
  isspace c = false -> occurrences c (lstrip s) = occurrences c s.
Proof.
  intros Hc. induction s as [|x s IH]; [reflexivity|]. cbn [lstrip].
  destruct (isspace x) eqn:Ex; [|reflexivity].
  rewrite IH. unfold occurrences. cbn [List.filter].
  destruct (N.eqb_spec x c) as [->|_]; [congruence | reflexivity].
Qed.

Lemma occurrences_strip (c : char) (s : str) :
  isspace c = false -> occurrences c (strip s) = occurrences c s.
Proof.
  intros Hc. unfold strip, rstrip.
  now rewrite occurrences_rev, occurrences_lstrip, occurrences_rev,
    occurrences_lstrip.
Qed.

(** Splitting at a one-character separator gives one piece more than
    there are separators. *)
Lemma split_from_length (c : char) (s cur : str) :
  List.length (split_from [c] s O cur) = S (occurrences c s).
Proof.
  revert cur. induction s as [|x s IH]; intros cur; [reflexivity|].
  cbn [split_from startswith]. rewrite startswith_nil, andb_true_r.
  unfold occurrences. cbn [List.filter]. rewrite (N.eqb_sym c x).
  destruct (x =? c); cbn [List.length Nat.pred]; now rewrite IH.
Qed.

Lemma load_lines_raises (lines : list str) (acc : gmap str str) (e : exn) :
  load_lines lines acc = Raise e -> e = ValueError.
Proof.
  revert acc. induction lines as [|l lines IH]; intros acc H; cbn [load_lines] in H.
  - discriminate.
  - destruct (split (strip l) (py "|")) as [|a [|b [|c r]]];
      try (now injection H as <-).
    now apply IH in H.
Qed.

Lemma load_lines_pipes (lines : list str) (acc m : gmap str str) :
  load_lines lines acc = Ok m ->
  Forall (fun l => occurrences 0x7C l = 1%nat) lines.
Proof.
  revert acc. induction lines as [|l lines IH]; intros acc H; cbn [load_lines] in H.
  - constructor.
  - pose proof (split_from_length 0x7C (strip l) []) as Hlen.
    change (split_from [0x7C] (strip l) O []) with (split (strip l) (py "|")) in Hlen.
    rewrite occurrences_strip in Hlen by reflexivity.
    destruct (split (strip l) (py "|")) as [|a [|b [|c r]]]; try discriminate.
    cbn [List.length] in Hlen. constructor; [lia|]. now apply IH in H.
Qed.

Lemma load_lines_returns (lines : list str) (acc : gmap str str) :
  Forall (fun l => occurrences 0x7C l = 1%nat) lines ->
  exists m, load_lines lines acc = Ok m.
Proof.
  intros H. revert acc. induction H as [|l lines Hl _ IH]; intros acc; cbn [load_lines].
  - eauto.
  - pose proof (split_from_length 0x7C (strip l) []) as Hlen.
    change (split_from [0x7C] (strip l) O []) with (split (strip l) (py "|")) in Hlen.
    rewrite occurrences_strip in Hlen by reflexivity. rewrite Hl in Hlen.
    destruct (split (strip l) (py "|")) as [|a [|b [|c r]]]; try discriminate.
    apply IH.
Qed.

(** X12.  [load_translations_map] returns exactly when every line of the
    cache file holds one pipe character: a line with none (a blank line
    left at the end of the file is one) or with two or more makes it raise
    [ValueError], and with it the whole conversion before anything is
    read. *)
Theorem load_needs_one_pipe_per_line (translation_file : str)
    (fs : gmap str str) (text : str) :
  fs !! translation_file = Some text ->
  (Forall (fun l => occurrences 0x7C l = 1%nat) (readlines text) ->
   exists m, load_translations_map translation_file fs = Ok m)
  /\ (forall l, In l (readlines text) -> occurrences 0x7C l <> 1%nat ->
      load_translations_map translation_file fs = Raise ValueError).
Proof.
  intros Hf. unfold load_translations_map. rewrite Hf. split.
  - apply load_lines_returns.
  - intros l Hin Hl. destruct (load_lines (readlines text) ∅) as [m|e] eqn:E.
    + apply load_lines_pipes in E. rewrite List.Forall_forall in E.
      now specialize (E l Hin).
    + now rewrite (load_lines_raises _ _ _ E).
Qed.

(** ** The csv reader on plain lines *)






(** ** Running without a key, and the command line *)

Section KeyProperties.

Variable google : nat -> str -> option str -> str -> Response.
Variable pad_year : bool.

Lemma translate_text_no_key (text : str) (target_lang api_key : option str)
    (w : World) :
  truthy api_key = false ->
  (translate_text google text target_lang api_key w).1 = Raise ValueError.
Proof.
  unfold translate_text, bind, record_call, throw.
  destruct api_key as [[|c key]|]; cbn; congruence.
Qed.

Lemma returns_quietly_bind {A B} (m : M A) (k : A -> M B) :
  returns_quietly m -> (forall a, returns_quietly (k a)) ->
  returns_quietly (bind m k).
Proof.
  intros Hm Hk w b w' H. apply bind_ok in H as (a & w1 & H1 & H2).
  destruct (Hm _ _ _ H1) as [E1 E2]. destruct (Hk a _ _ _ H2) as [E3 E4].
  split; congruence.
Qed.

Lemma returns_quietly_quiet {A} (m : M A) : quiet m -> returns_quietly m.
Proof. intros Hm w a w' H. specialize (Hm w). now rewrite H in Hm. Qed.

Lemma returns_quietly_translate_field (text : str) (target_lang api_key : option str) :
  truthy api_key = false ->
  returns_quietly (translate_field google text target_lang api_key).
Proof.
  intros Hk w s w' H. destruct (translations w !! text) as [cached|] eqn:E.
  - rewrite (translate_field_hit _ _ _ _ _ _ E) in H. now injection H as _ <-.
  - pose proof (translate_field_miss google text target_lang api_key w E) as Hm.
    cbn zeta in Hm. rewrite (translate_text_no_key _ _ _ _ Hk) in Hm.
    rewrite Hm in H. discriminate.
Qed.

Lemma returns_quietly_field_text (text : str) (target_lang api_key : option str) :
  truthy api_key = false ->
  returns_quietly (field_text google text target_lang api_key).
Proof.
  intros Hk. unfold field_text. destruct (truthy target_lang).
  - now apply returns_quietly_translate_field.
  - apply returns_quietly_quiet. now intros w.
Qed.

Lemma returns_quietly_emit_transactions (target_lang api_key : option str)
    (ts : list Transaction) :
  truthy api_key = false ->
  returns_quietly (emit_transactions google pad_year target_lang api_key ts).
Proof.
  intros Hk. induction ts as [|t ts IH]; cbn [emit_transactions].
  - apply returns_quietly_quiet. now intros w.
  - apply returns_quietly_bind; [|intros _; exact IH].
    unfold emit_transaction.
    repeat first
      [ apply returns_quietly_bind; [|intros ?]
      | now apply returns_quietly_field_text
      | apply returns_quietly_quiet; now intros ? ].
Qed.

Lemma returns_quietly_generate_ofx (transactions : list Transaction)
    (metadata : Metadata) (target_lang api_key : option str) :
  truthy api_key = false ->
  returns_quietly (generate_ofx google pad_year transactions metadata
                     target_lang api_key).
Proof.
  intros Hk. unfold generate_ofx.
  apply returns_quietly_bind; [apply returns_quietly_quiet; now intros w|]. intros _.
  apply returns_quietly_bind; [apply returns_quietly_quiet, quiet_write_all|]. intros _.
  apply returns_quietly_bind.
  { apply returns_quietly_quiet. destruct (export_time metadata); now intros w. }
  intros dt.
  apply returns_quietly_bind; [apply returns_quietly_quiet, quiet_write_all|]. intros _.
  apply returns_quietly_bind; [now apply returns_quietly_emit_transactions|]. intros _.
  apply returns_quietly_quiet, quiet_write_all.
Qed.

Lemma block_of_cached (target_lang : option str) (cache : gmap str str)
    (t : Transaction) (block : list str) :
  truthy target_lang = true ->
  block_of pad_year target_lang cache t block ->
  is_Some (cache !! counterparty t) /\ is_Some (cache !! item_name t).
Proof.
  intros Hl (dt & name & memo & _ & _ & Hn & Hm). unfold name_text in Hn, Hm.
  rewrite Hl in Hn, Hm. destruct Hn as (x & -> & _). destruct Hm as (y & -> & _).
  eauto.
Qed.

Lemma generate_ofx_no_key (transactions : list Transaction) (metadata : Metadata)
    (target_lang api_key : option str) (w w' : World) :
  truthy api_key = false ->
  generate_ofx google pad_year transactions metadata target_lang api_key w
  = (Ok tt, w') ->
  translations w' = translations w /\ calls w' = calls w
  /\ (truthy target_lang = true ->
      forall t, In t transactions ->
        is_Some (translations w !! counterparty t)
        /\ is_Some (translations w !! item_name t)).
Proof.
  intros Hk H.
  destruct (returns_quietly_generate_ofx _ _ _ _ Hk _ _ _ H) as [E1 E2].
  split; [exact E1|]. split; [exact E2|].
  intros Hl t Ht.
  apply generate_ofx_document in H as (dt & blocks & _ & HF & _).
  apply list_elem_of_In, list_elem_of_lookup in Ht as [i Hi].
  destruct (Forall2_lookup_l _ _ _ _ _ HF Hi) as (block & _ & Hb).
  rewrite <- E1. now apply (block_of_cached target_lang _ t block).
Qed.

(** X14.  Without a key (none, or the empty string) a run of
    [generate_ofx] that is given a target language returns only if it had
    nothing to translate: the counterparty and the item name of every
    transaction were in the cache already, the translator was not called,
    and the cache is what it was. *)
Theorem generate_ofx_without_key_needs_full_cache
    (transactions : list Transaction) (metadata : Metadata)
    (target_lang api_key : option str) (w w' : World) :
  truthy api_key = false ->
  truthy target_lang = true ->
  generate_ofx google pad_year transactions metadata target_lang api_key w
  = (Ok tt, w') ->
  translations w' = translations w /\ calls w' = calls w
  /\ forall t, In t transactions ->
       is_Some (translations w !! counterparty t)
       /\ is_Some (translations w !! item_name t).
Proof.
  intros Hk Hl H.
  destruct (generate_ofx_no_key _ _ _ _ _ _ Hk H) as (E1 & E2 & Hc). auto.
Qed.

End KeyProperties.

Section MainProperties.

Variable decode : Encoding -> list byte -> option str.
Variable google : nat -> str -> option str -> str -> Response.
Variable pad_year : bool.

(** X15.  The cache file is rewritten only by a conversion that went
    through: when the input is missing or any step raises, also after
    translations were fetched, the files are left as they were; when the
    conversion completes, the mapping saved holds every entry of the
    mapping loaded, unchanged. *)
Theorem main_saves_cache_only_when_converted
    (input : option (list byte)) (translate : bool) (api_key : option str)
    (fs : gmap str str) :
  (outcome (main decode google pad_year input translate api_key fs) <> Converted ->
   files (main decode google pad_year input translate api_key fs) = fs)
  /\ (outcome (main decode google pad_year input translate api_key fs) = Converted ->
      exists loaded saved,
        load_translations_map translation_file fs = Ok loaded
        /\ files (main decode google pad_year input translate api_key fs)
           = save_translations_map saved translation_file fs
        /\ forall k v, loaded !! k = Some v -> saved !! k = Some v).
Proof.
  unfold main. destruct input as [bytes|]; [|split; [reflexivity | discriminate]].
  destruct (load_translations_map translation_file fs) as [cache|e];
    [|split; [reflexivity | discriminate]].
  destruct (parse_alipay_file decode bytes) as [[ts md]|e];
    [|split; [reflexivity | discriminate]].
  cbn zeta.
  match goal with |- context [generate_ofx ?g ?p ?t ?m ?l ?k ?w0] =>
    pose proof (keeps_entries (generate_ofx g p t m l k) w0
                  (translates_once_generate_ofx g p t m l k)) as Hkeep;
    destruct (generate_ofx g p t m l k w0) as [[u|e] w1] end;
    cbn [fst snd outcome files translations] in *.
  - split; [intros H; now contradiction H|].
    intros _. exists cache, (translations w1). auto.
  - split; [reflexivity | discriminate].
Qed.

(** X16.  The target language is always English, with or without
    [--translate]; the switch only decides whether the key is passed on.
    So a conversion without [--translate] completes only when the cache
    file already held a translation for the counterparty and the item
    name of every transaction; it then calls the translator not at all,
    whatever key was given, and saves the mapping it loaded. *)
Theorem main_without_translate_needs_full_cache
    (bytes : list byte) (api_key : option str) (fs : gmap str str) :
  outcome (main decode google pad_year (Some bytes) false api_key fs) = Converted ->
  exists loaded transactions metadata,
    load_translations_map translation_file fs = Ok loaded
    /\ parse_alipay_file decode bytes = Ok (transactions, metadata)
    /\ (forall t, In t transactions ->
          is_Some (loaded !! counterparty t) /\ is_Some (loaded !! item_name t))
    /\ calls_made (main decode google pad_year (Some bytes) false api_key fs) = []
    /\ files (main decode google pad_year (Some bytes) false api_key fs)
       = save_translations_map loaded translation_file fs.
Proof.
  unfold main.
  destruct (load_translations_map translation_file fs) as [cache|e]; [|discriminate].
  destruct (parse_alipay_file decode bytes) as [[ts md]|e]; [|discriminate].
  cbn zeta.
  match goal with |- context [generate_ofx ?g ?p ?t ?m ?l ?k ?w0] =>
    pose proof (generate_ofx_no_key g p t m l k w0) as Hk;
    destruct (generate_ofx g p t m l k w0) as [[[]|e] w1] end;
    cbn [fst snd outcome files calls_made] in *; [|discriminate].
  intros _.
  destruct (Hk w1 eq_refl eq_refl) as (E1 & E2 & Hc).
  exists cache, ts, md. split; [reflexivity|]. split; [reflexivity|].
  split; [exact (Hc eq_refl)|]. split; [exact E2|]. now rewrite E1.
Qed.

End MainProperties.

(** ** A translation that fails; the metadata lines *)

(** X17.  A translation that fails stores nothing: when the text is not in
    the cache and the key is missing, [translate_field] raises
    [ValueError] whatever the service would answer, and with a key and a
    service that answers with an error status it raises [SystemError]; in
    both cases the cache is what it was, so the next call for the same
    text goes to the translator again. *)
Theorem failed_translation_is_not_cached
    (google : nat -> str -> option str -> str -> Response)
    (text : str) (target_lang api_key : option str) (w : World) :
  translations w !! text = None ->
  (truthy api_key = false ->
   (translate_field google text target_lang api_key w).1 = Raise ValueError)
  /\ (forall key, api_key = Some key -> key <> [] ->
      google (List.length (calls w)) text target_lang key = HTTPError ->
      (translate_field google text target_lang api_key w).1 = Raise SystemError)
  /\ (forall e, (translate_field google text target_lang api_key w).1 = Raise e ->
      translations (translate_field google text target_lang api_key w).2
        = translations w
      /\ calls (translate_field google text target_lang api_key w).2
         = calls w ++ [{| call_text := text; call_target := target_lang;
                          call_key := api_key |}]).
Proof.
  intros E.
  pose proof (translate_field_miss google text target_lang api_key w E) as Hm.
  cbn zeta in Hm. split; [|split].
  - intros Hk. rewrite (translate_text_no_key google _ _ _ _ Hk) in Hm.
    now rewrite Hm.
  - intros key -> Hne Hg.
    assert (Ht : (translate_text google text target_lang (Some key) w).1
                 = Raise SystemError).
    { unfold translate_text, bind, record_call, throw.
      destruct key as [|c key]; [contradiction|]. cbn. now rewrite Hg. }
    rewrite Ht in Hm. now rewrite Hm.
  - intros e He.
    destruct (translate_text google text target_lang api_key w).1 as [t|e'];
      rewrite Hm in He |- *; [discriminate|]. now split.
Qed.

Lemma split_from_free (c : N) (a s cur : str) :
  forallb (fun x => negb (x =? c)) a = true ->
  split_from [c] (a ++ s) O cur = split_from [c] s O (rev a ++ cur).
Proof.
  revert cur. induction a as [|x a IH]; intros cur H; [reflexivity|].
  cbn [forallb] in H. apply andb_prop in H as [Hx Ha].
  cbn [app split_from startswith].
  rewrite N.eqb_sym. apply negb_true_iff in Hx. rewrite Hx. cbn [andb].
  rewrite IH by exact Ha. cbn [rev]. now rewrite <- app_assoc.
Qed.

Lemma split_from_free_end (c : N) (b cur : str) :
  forallb (fun x => negb (x =? c)) b = true ->
  split_from [c] b O cur = [rev cur ++ b].
Proof.
  revert cur. induction b as [|x b IH]; intros cur H.
  - cbn [split_from]. now rewrite app_nil_r.
  - cbn [forallb] in H. apply andb_prop in H as [Hx Hb].
    cbn [split_from startswith]. rewrite N.eqb_sym.
    apply negb_true_iff in Hx. rewrite Hx. cbn [andb].
    rewrite IH by exact Hb. cbn [rev]. now rewrite <- app_assoc.
Qed.

(** Two pieces without the separator, joined by it, are split back. *)
Lemma split_two (c : N) (a b : str) :
  forallb (fun x => negb (x =? c)) a = true ->
  forallb (fun x => negb (x =? c)) b = true ->
  split (a ++ c :: b) [c] = [a; b].
Proof.
  intros Ha Hb. unfold split. rewrite split_from_free by exact Ha.
  cbn [split_from startswith]. rewrite N.eqb_refl, startswith_nil.
  cbn [andb List.length Nat.pred].
  rewrite split_from_free_end by exact Hb.
  cbn [rev app]. now rewrite ?app_nil_r, ?rev_involutive.
Qed.

Lemma lstrip_all_space (s : str) :
  forallb isspace s = true -> lstrip s = [].
Proof.
  induction s as [|c s IH]; [reflexivity|]. cbn [forallb lstrip].
  intros H. apply andb_prop in H as [-> Hs]. now apply IH.
Qed.

(** White space added at the end does not show after [strip]. *)
Lemma strip_app_space (s t : str) :
  forallb isspace t = true -> strip (s ++ t) = strip s.
Proof.
  intros Ht.
  assert (Hr : forall u, lstrip (rev t ++ u) = lstrip u).
  { intros u. assert (Hrt : forallb isspace (rev t) = true).
    { rewrite forallb_forall in *. intros x Hx. apply Ht. now apply in_rev. }
    induction (rev t) as [|c r IH]; [reflexivity|].
    cbn [forallb] in Hrt. apply andb_prop in Hrt as [Hc Hrt].
    cbn [app lstrip]. rewrite Hc. now apply IH. }
  unfold strip, rstrip.
  assert (Hcases : lstrip (s ++ t) = lstrip s ++ t
                   \/ (lstrip (s ++ t) = [] /\ lstrip s = [])).
  { clear Hr. induction s as [|c s IH].
    - right. split; [now apply lstrip_all_space | reflexivity].
    - cbn [app lstrip]. destruct (isspace c); [exact IH | now left]. }
  destruct Hcases as [-> | [-> ->]]; [|reflexivity].
  now rewrite rev_app_distr, Hr.
Qed.

(** X18.  The account is whatever stands between the colon of the label
    and the end of the line, stripped, as long as it holds no further
    colon: brackets around the account are kept, so they go into ACCTID. *)
Theorem account_is_rest_of_line (v : str) (m : Metadata) :
  forallb (fun x => negb (x =? 0x3A)) v = true ->
  scan_line (py "账号:" ++ v ++ [0x0A]) m = Ok (set_account (strip v) m).
Proof.
  intros Hv. unfold scan_line.
  change (py "账号:" ++ v ++ [0x0A]) with (py "账号" ++ 0x3A :: (v ++ [0x0A])).
  assert (Hs : startswith (py "账号" ++ 0x3A :: (v ++ [0x0A])) (py "账号") = true)
    by reflexivity.
  rewrite Hs.
  change (py ":") with [0x3A].
  rewrite (split_two 0x3A (py "账号") (v ++ [0x0A]))
    by first [reflexivity | apply forallb_app_intro; [exact Hv | reflexivity]].
  cbn [item nth_error rbind].
  now rewrite (strip_app_space v [0x0A]).
Qed.

Lemma lstrip_snoc (l : str) (c : N) :
  isspace c = false -> lstrip (l ++ [c]) = lstrip l ++ [c].
Proof.
  intros Hc. induction l as [|x l IH]; cbn [app lstrip].
  - now rewrite Hc.
  - destruct (isspace x); [exact IH | reflexivity].
Qed.

Lemma strip_first (c : N) (s : str) :
  isspace c = false -> exists t, strip (c :: s) = c :: t.
Proof.
  intros Hc. unfold strip, rstrip. cbn [lstrip]. rewrite Hc. cbn [rev].
  rewrite (lstrip_snoc _ _ Hc), rev_app_distr. cbn [rev app]. eauto.
Qed.

(** The header line is not taken for a metadata line. *)
Lemma header_unlabelled (h : str) :
  startswith h (py "交易号") = true -> labelled h = false.
Proof.
  intros H.
  assert (E : py "交易号" = [0x4EA4; 0x6613; 0x53F7]) by (vm_compute; reflexivity).
  rewrite E in H. destruct h as [|c h]; [discriminate H|].
  cbn [startswith] in H. apply andb_prop in H as [Hc _].
  apply N.eqb_eq in Hc. subst c.
  unfold labelled.
  destruct (strip_first 0x4EA4 h eq_refl) as [t ->].
  reflexivity.
Qed.

Lemma scan_line_unlabelled (line : str) (m : Metadata) :
  labelled line = false -> scan_line line m = Ok m.
Proof.
  unfold labelled, scan_line. intros H.
  apply orb_false_elim in H as [H H4]. apply orb_false_elim in H as [H H3].
  apply orb_false_elim in H as [H1 H2]. now rewrite H1, H2, H3, H4.
Qed.

Lemma scan_lines_unlabelled (pre post : list str) (h : str) (m : Metadata) :
  Forall (fun line => labelled line = false
                      /\ startswith line (py "交易号") = false) pre ->
  labelled h = false -> startswith h (py "交易号") = true ->
  scan_lines (pre ++ h :: post) m = Ok (m, post).
Proof.
  intros Hpre Hh Hs. induction Hpre as [|line pre [Hl Hn] _ IH]; cbn [app scan_lines].
  - rewrite (scan_line_unlabelled _ _ Hh). cbn [rbind]. now rewrite Hs.
  - rewrite (scan_line_unlabelled _ _ Hl). cbn [rbind]. now rewrite Hn.
Qed.

(** X19.  Metadata come only from labelled lines that stand before the
    header line.  A statement with none there (one that keeps its summary
    and export-time lines below the table, say) is parsed with the
    initial metadata: account, dates, export time and the two totals are
    empty and the record count is unset, while the lines after the
    header, labelled or not, are all handed to the csv reader. *)
Theorem unlabelled_head_gives_initial_metadata
    (decode : Encoding -> list byte -> option str) (input : list byte)
    (pre post : list str) (h : str) :
  try_encodings decode encoding_list input = Ok (pre ++ h :: post) ->
  Forall (fun line => labelled line = false
                      /\ startswith line (py "交易号") = false) pre ->
  startswith h (py "交易号") = true ->
  parse_alipay_file decode input
  = let* rows := csv_reader post in Ok (collect_rows rows [], metadata0).
Proof.
  intros Hdec Hpre Hs. unfold parse_alipay_file, parse_lines.
  rewrite Hdec. cbn [rbind].
  now rewrite (scan_lines_unlabelled pre post h metadata0 Hpre
                 (header_unlabelled h Hs) Hs).
Qed.

(** ** Instances *)

Lemma first_decodable_encoding_is_parsed_witness :
  parse_alipay_file sample_codec file_17 = parse_lines lines_17.
Proof.
  apply (first_decodable_encoding_is_parsed sample_codec file_17
           [] [gbk; gb2312] utf_8
           (py header_line ++ [0x0A] ++ py row_17 ++ [0x0A])).
  - reflexivity.
  - intros e [].
  - vm_compute. reflexivity.
Defined.

Lemma lines_after_header_never_reach_metadata_witness :
  scan_lines ([py title_line ++ [0x0A]] ++ (py header_line ++ [0x0A])
                :: [py row_17 ++ [0x0A]; py "共1笔记录" ++ [0x0A];
                    py "导出时间:[2024-02-01 10:00:00]" ++ [0x0A]]) metadata0
  = Ok (metadata0, [py row_17 ++ [0x0A]; py "共1笔记录" ++ [0x0A];
                    py "导出时间:[2024-02-01 10:00:00]" ++ [0x0A]]).
Proof.
  apply (proj1 (lines_after_header_never_reach_metadata
                  [py title_line ++ [0x0A]] [py row_17 ++ [0x0A]]
                  [py row_17 ++ [0x0A]; py "共1笔记录" ++ [0x0A];
                   py "导出时间:[2024-02-01 10:00:00]" ++ [0x0A]]
                  (py header_line ++ [0x0A])
                  ltac:(constructor; [vm_compute; reflexivity | constructor])
                  ltac:(vm_compute; reflexivity))
           metadata0 [py row_17 ++ [0x0A]]).
  vm_compute. reflexivity.
Defined.

Lemma parsed_fields_are_stripped_witness :
  strip (counterparty sample_transaction) = counterparty sample_transaction
  /\ starts_with_space (counterparty sample_transaction) = false
  /\ ends_with_space (counterparty sample_transaction) = false.
Proof.
  apply (parsed_fields_are_stripped sample_codec file_17
           [sample_transaction] metadata0)
    with (t := sample_transaction).
  - vm_compute. reflexivity.
  - now left.
  - cbn [fields_of]. do 7 right. now left.
Defined.

Lemma format_ofx_datetime_refuses_spaceless_witness :
  format_ofx_datetime false (py "2024-01-15") = Raise ValueError.
Proof.
  apply (format_ofx_datetime_refuses_spaceless false (py "2024-01-15")).
  - vm_compute. discriminate.
  - vm_compute. reflexivity.
Defined.

Lemma parsed_export_time_stops_generate_ofx_witness :
  parse_alipay_file sample_codec file_export_first
  = Ok ([sample_transaction], set_export_time (py "2024-02-01") metadata0)
  /\ (generate_ofx sample_google false [sample_transaction]
        (set_export_time (py "2024-02-01") metadata0) None None world0).1
     = Raise ValueError.
Proof.
  assert (H : parse_alipay_file sample_codec file_export_first
              = Ok ([sample_transaction],
                    set_export_time (py "2024-02-01") metadata0))
    by (vm_compute; reflexivity).
  split; [exact H|].
  rewrite (parsed_export_time_stops_generate_ofx sample_codec file_export_first
             [sample_transaction] (set_export_time (py "2024-02-01") metadata0)
             sample_google false None None world0 H).
  - reflexivity.
  - vm_compute. discriminate.
Defined.




Lemma generate_ofx_without_language_is_quiet_witness :
  translations run_sample.2 = translations world0
  /\ calls run_sample.2 = calls world0.
Proof.
  apply (generate_ofx_without_language_is_quiet sample_google false
           [sample_transaction] sample_metadata None None world0).
  reflexivity.
Defined.

Lemma load_needs_one_pipe_per_line_witness :
  load_translations_map translation_file fs_blank_line = Raise ValueError.
Proof.
  apply (load_needs_one_pipe_per_line translation_file fs_blank_line
           (py "Cafe|Coffee shop" ++ [0x0A; 0x0A])) with (l := [0x0A]).
  - apply lookup_singleton_eq.
  - vm_compute. right. now left.
  - vm_compute. discriminate.
Defined.


Lemma generate_ofx_without_key_needs_full_cache_witness :
  translations (generate_ofx sample_google false [sample_transaction]
                  sample_metadata (Some (py "en")) None world_cached).2
  = translations world_cached
  /\ calls (generate_ofx sample_google false [sample_transaction]
              sample_metadata (Some (py "en")) None world_cached).2
     = calls world_cached
  /\ is_Some (translations world_cached !! counterparty sample_transaction)
  /\ is_Some (translations world_cached !! item_name sample_transaction).
Proof.
  destruct (generate_ofx_without_key_needs_full_cache sample_google false
              [sample_transaction] sample_metadata (Some (py "en")) None
              world_cached
              (generate_ofx sample_google false [sample_transaction]
                 sample_metadata (Some (py "en")) None world_cached).2)
    as (T & C & N).
  - reflexivity.
  - reflexivity.
  - vm_compute. reflexivity.
  - split; [exact T | split; [exact C|]].
    apply (N sample_transaction). now left.
Defined.

Lemma main_saves_cache_only_when_converted_witness :
  exists loaded saved,
    load_translations_map translation_file ∅ = Ok loaded
    /\ files (main sample_codec sample_google false (Some file_17) true
                (Some (py "key")) ∅)
       = save_translations_map saved translation_file ∅.
Proof.
  destruct (proj2 (main_saves_cache_only_when_converted sample_codec
                     sample_google false (Some file_17) true
                     (Some (py "key")) ∅))
    as (loaded & saved & L & F & _).
  - vm_compute. reflexivity.
  - exists loaded, saved. split; [exact L | exact F].
Defined.

Lemma main_without_translate_needs_full_cache_witness :
  exists loaded transactions metadata,
    load_translations_map translation_file fs_cached = Ok loaded
    /\ parse_alipay_file sample_codec file_17 = Ok (transactions, metadata)
    /\ calls_made (main sample_codec sample_google false (Some file_17) false
                     (Some (py "key")) fs_cached) = []
    /\ files (main sample_codec sample_google false (Some file_17) false
                (Some (py "key")) fs_cached)
       = save_translations_map loaded translation_file fs_cached.
Proof.
  destruct (main_without_translate_needs_full_cache sample_codec sample_google
              false file_17 (Some (py "key")) fs_cached)
    as (loaded & transactions & metadata & L & P & _ & C & F).
  - vm_compute. reflexivity.
  - exists loaded, transactions, metadata.
    split; [exact L | split; [exact P | split; [exact C | exact F]]].
Defined.

Lemma failed_translation_is_not_cached_witness :
  (translate_field sample_google (py "Cafe") (Some (py "en")) None world0).1
  = Raise ValueError
  /\ (translate_field google_down (py "Cafe") (Some (py "en"))
        (Some (py "key")) world0).1 = Raise SystemError.
Proof.
  split.
  - apply (failed_translation_is_not_cached sample_google (py "Cafe")
             (Some (py "en")) None world0); reflexivity.
  - apply (failed_translation_is_not_cached google_down (py "Cafe")
             (Some (py "en")) (Some (py "key")) world0)
      with (key := py "key").
    + reflexivity.
    + reflexivity.
    + vm_compute. discriminate.
    + reflexivity.
Defined.

Lemma account_is_rest_of_line_witness :
  scan_line (py "账号:" ++ py "[a@b.c]" ++ [0x0A]) metadata0
  = Ok (set_account (strip (py "[a@b.c]")) metadata0).
Proof.
  apply (account_is_rest_of_line (py "[a@b.c]") metadata0).
  vm_compute. reflexivity.
Defined.

Lemma unlabelled_head_gives_initial_metadata_witness :
  parse_alipay_file sample_codec file_titled
  = let* rows := csv_reader [py row_17 ++ [0x0A]; py "共1笔记录" ++ [0x0A];
                             py "导出时间:[2024-02-01 10:00:00]" ++ [0x0A]] in
    Ok (collect_rows rows [], metadata0).
Proof.
  apply (unlabelled_head_gives_initial_metadata sample_codec file_titled
           [py title_line ++ [0x0A]] _ (py header_line ++ [0x0A])).
  - vm_compute. reflexivity.
  - constructor; [split; vm_compute; reflexivity | constructor].
  - vm_compute. reflexivity.
Defined.
